(** * FLRA Alexa skill: feed ingestion, notification due-ness and queries

    A shallow embedding of the two Lambda functions of the repository,
    [scheduler/app.py] (feed ingestion and proactive notifications) and
    [alexaSkill/app.py] (the voice skill), together with the properties
    of the notification logic, the feed deduplication and the query filter.

    Modelling conventions.
    - A naive [datetime] is the number of microseconds since the epoch, a
      [timedelta] a number of microseconds, both in [Z].
    - The two DynamoDB tables are finite maps keyed by the table's key
      attribute; [scan] returns every record (the store contract).
    - [datetime.utcnow()] is a read of the wall clock: the world carries the
      number of reads made so far, and the [k]-th read returns [clock k].
    - Calls to the summarizer, to Comprehend and to the proactive-events API
      are recorded in the world; their replies are given by oracles.
    - A Python exception is the [Raised] outcome of a computation. *)

From Stdlib Require Import ZArith String Ascii List Lia.
From stdpp Require Import base option list gmap strings pretty sorting.

Local Open Scope string_scope.
Local Open Scope Z_scope.
Local Open Scope list_scope.

(** ** Text *)

(** Python's [needle in hay] on [str]: [needle] occurs in [hay] as a
    contiguous, case-sensitive run of characters. *)
Fixpoint contains (needle hay : string) : bool :=
  if String.prefix needle hay then true
  else match hay with
       | EmptyString => false
       | String _ hay' => contains needle hay'
       end.

(** ** Time *)

Definition timedelta := Z.

Definition timedelta_days (d : Z) : timedelta := d * 86400000000.
Definition timedelta_hours (h : Z) : timedelta := h * 3600000000.

(** What [datetime.fromisoformat] can return: a naive datetime, or an
    aware one when the text carries a UTC offset. *)
Inductive datetime :=
  | Naive (us : Z)
  | Aware (us : Z).

Inductive exn :=
  | ValueError   (* fromisoformat on a text that is no ISO date *)
  | TypeError.   (* naive minus aware datetime *)

(** [dt.replace(microsecond=0)] *)
Definition replace_microsecond_0 (t : Z) : Z := t - t mod 1000000.

(** ** Records *)

(** An entry of a parsed feed; [published] may be missing. *)
Record Entry := mkEntry {
  link : string;
  title : string;
  description : string;
  published : option string
}.

Record Entity := mkEntity { Text : string; Type_ : string }.

(** A record of the feed table, as [process_feed] writes it. The key
    attribute [ItemId] is the key of the map. [FeedSource] is read by the
    skill with a default, so it is optional here. *)
Record FeedItem := mkFeedItem {
  Title : option string;
  Link : string;
  PublishedDate : string;
  Content : string;
  Summary : option string;
  Entities : list Entity;
  FeedSource : option string;
  CreatedTimestamp : string
}.

(** An element of the [new_items] list of a run. *)
Record NewItem := mkNewItem {
  n_ItemId : string;
  n_Title : string;
  n_Link : string;
  n_Summary : string;
  n_PublishedDate : string;
  n_FeedSource : string
}.

(** The attributes of a record of the preference table other than its key
    [UserId]; every one of them may be absent. *)
Record UserPref := mkUserPref {
  NotificationFrequency : option string;
  PreferredTopic : option string;
  LastNotifiedTimestamp : option string;
  UpdatedTimestamp : option string
}.

(** The event posted to the proactive-events API. *)
Record EventPayload := mkEventPayload {
  ev_timestamp : string;
  ev_referenceId : Z;
  ev_expiryTime : string;
  ev_count : nat;
  ev_user : string
}.

(** ** External replies *)

(** The reply to the summarizer request, after [response.json()]: the call
    or the decoding raised, or a JSON object came back, with or without a
    ["summary"] member. *)
Inductive llm_outcome :=
  | LlmRaises
  | LlmJson (summary : option string).

(** The reply of [comprehend.detect_entities]: raised, or a response with or
    without an ['Entities'] member. *)
Inductive comprehend_outcome :=
  | ComprehendRaises
  | ComprehendResponse (entities : option (list Entity)).

(** ** The world *)

Record World := mkWorld {
  feed_table : gmap string FeedItem;
  prefs_table : gmap string UserPref;
  ticks : nat;                                  (* clock reads so far *)
  llm_calls : list (string * string);           (* (title, content) summarized *)
  comprehend_calls : list string;               (* texts sent to Comprehend *)
  notifications : list (string * list NewItem); (* send_proactive_notification calls *)
  posted : list EventPayload                    (* events posted to the API *)
}.

Inductive Outcome (A : Type) :=
  | Ok (a : A) (w : World)
  | Raised (e : exn) (w : World).
Arguments Ok {A} a w.
Arguments Raised {A} e w.

Definition M (A : Type) : Type := World -> Outcome A.

Definition ret {A} (a : A) : M A := fun w => Ok a w.

Definition bind {A B} (m : M A) (k : A -> M B) : M B :=
  fun w => match m w with
           | Ok a w' => k a w'
           | Raised e w' => Raised e w'
           end.

Definition raise {A} (e : exn) : M A := fun w => Raised e w.

Declare Scope run_scope.
Delimit Scope run_scope with run.
Notation "x <- c1 ;; c2" := (bind c1 (fun x => c2))
  (at level 100, c1 at next level, right associativity) : run_scope.
Notation "c1 ;;; c2" := (bind c1 (fun _ => c2))
  (at level 100, right associativity) : run_scope.

Definition world_of {A} (o : Outcome A) : World :=
  match o with Ok _ w => w | Raised _ w => w end.

Definition result_of {A} (o : Outcome A) : option A :=
  match o with Ok a _ => Some a | Raised _ _ => None end.

(** Python truthiness of an optional string: [None] and [""] are falsy. *)
Definition truthy (s : option string) : bool :=
  match s with
  | None => false
  | Some s => negb (String.eqb s "")
  end.

(** Field updates of the world. *)
Definition with_feed_table (t : gmap string FeedItem) (w : World) : World :=
  mkWorld t (prefs_table w) (ticks w) (llm_calls w) (comprehend_calls w)
          (notifications w) (posted w).
Definition with_prefs_table (t : gmap string UserPref) (w : World) : World :=
  mkWorld (feed_table w) t (ticks w) (llm_calls w) (comprehend_calls w)
          (notifications w) (posted w).
Definition with_ticks (n : nat) (w : World) : World :=
  mkWorld (feed_table w) (prefs_table w) n (llm_calls w) (comprehend_calls w)
          (notifications w) (posted w).
Definition with_llm_calls (l : list (string * string)) (w : World) : World :=
  mkWorld (feed_table w) (prefs_table w) (ticks w) l (comprehend_calls w)
          (notifications w) (posted w).
Definition with_comprehend_calls (l : list string) (w : World) : World :=
  mkWorld (feed_table w) (prefs_table w) (ticks w) (llm_calls w) l
          (notifications w) (posted w).
Definition with_notifications (l : list (string * list NewItem)) (w : World) : World :=
  mkWorld (feed_table w) (prefs_table w) (ticks w) (llm_calls w)
          (comprehend_calls w) l (posted w).
Definition with_posted (l : list EventPayload) (w : World) : World :=
  mkWorld (feed_table w) (prefs_table w) (ticks w) (llm_calls w)
          (comprehend_calls w) (notifications w) l.

(** A [for] loop whose body threads an accumulator through the world. *)
Fixpoint for_each {A B} (body : B -> A -> M B) (l : list A) (acc : B) : M B :=
  match l with
  | [] => ret acc
  | x :: l' => bind (body acc x) (for_each body l')
  end.

(** *** scheduler/app.py: the topic filter of notify_users

    [filtered_items = []], then one [append] per matching item. *)
Definition filter_by_topic (topic : string) (new_items : list NewItem) : list NewItem :=
  fold_left
    (fun filtered_items item =>
       if contains topic (n_FeedSource item) then filtered_items ++ [item]
       else filtered_items)
    new_items [].

(** *** Python's sorted(l, key=..., reverse=True) on string keys

    [sorted] is stable, also with [reverse=True]: the result is in
    descending key order and records with equal keys keep the order they
    have in [l]. Strings compare character by character. *)
Fixpoint insert_desc {A} (key : A -> string) (x : A) (l : list A) : list A :=
  match l with
  | [] => [x]
  | y :: l' =>
      if String.leb (key y) (key x) then x :: y :: l'
      else y :: insert_desc key x l'
  end.

Definition sorted_reverse {A} (key : A -> string) (l : list A) : list A :=
  foldr (insert_desc key) [] l.

(** The feeds polled by the scheduler. *)
Definition MULTIPLE_FEEDS : list string :=
  [ "https://www.flra.gov/feeds/decisions.xml";
    "https://www.flra.gov/feeds/press-releases.xml" ].

(** *** alexaSkill/app.py: requests and responses *)

(** An intent request: the user id when [request["user"]["userId"]] is
    there, and the values of the slots when they are there. *)
Record IntentRequest := mkIntentRequest {
  req_userId : option string;
  slot_frequency : option string;
  slot_topic : option string
}.

(** The response envelope: the spoken text, the card (title, content) of an
    APL response, and the session flag. *)
Record Response := mkResponse {
  speech : string;
  card : option (string * string);
  shouldEndSession : bool
}.

Definition build_plaintext_response (speech_text : string) : Response :=
  mkResponse speech_text None false.

Definition build_apl_response (speech_text title subtitle : string) : Response :=
  mkResponse speech_text (Some (title, subtitle)) false.

Definition get_alexa_user_id (request : IntentRequest) : string :=
  default "demoUser" (req_userId request).

(** [str(x)] of an optional text inside an f-string. *)
Definition py_str (o : option string) : string := default "None" o.

(** ** Vocabulary of the specification *)

(** [needle] is a substring of [hay]. *)
Definition occurs_in (needle hay : string) : Prop :=
  ∃ pre post, hay = pre +:+ needle +:+ post.

(** The threshold of the due-ness rule: seven days for ["weekly"], one day
    for ["daily"] and for every other frequency. *)
Definition threshold (frequency : string) : timedelta :=
  if String.eqb frequency "weekly" then timedelta_days 7 else timedelta_days 1.

(** Descending order of the creation texts. *)
Definition newer_first (a b : FeedItem) : Prop :=
  String.le (CreatedTimestamp b) (CreatedTimestamp a).

(** ** A reference implementation of the datetime texts

    The properties below hold for every [fromisoformat] and [isoformat];
    this module gives the two functions on the texts this program writes,
    [YYYY-MM-DDTHH:MM:SS] with an optional [.ffffff], for use in concrete
    scenarios. A text of another shape is rejected here. *)
Module PyDatetime.

Definition digit (c : ascii) : option Z :=
  let n := Z.of_nat (nat_of_ascii c) in
  if (48 <=? n) && (n <=? 57) then Some (n - 48) else None.

(** The number written by a run of decimal digits. *)
Fixpoint number (acc : Z) (cs : list ascii) : option Z :=
  match cs with
  | [] => Some acc
  | c :: cs' =>
      match digit c with
      | Some d => number (acc * 10 + d) cs'
      | None => None
      end
  end.

Definition is_leap (y : Z) : bool :=
  ((y mod 4 =? 0) && negb (y mod 100 =? 0)) || (y mod 400 =? 0).

Definition days_in_month (y m : Z) : Z :=
  if m =? 2 then (if is_leap y then 29 else 28)
  else if (m =? 4) || (m =? 6) || (m =? 9) || (m =? 11) then 30
  else 31.

(** Days from 1970-01-01 to the given date of the Gregorian calendar. *)
Definition days_from_civil (y m d : Z) : Z :=
  let y' := if m <=? 2 then y - 1 else y in
  let era := y' / 400 in
  let yoe := y' - era * 400 in
  let mp := (m + 9) mod 12 in
  let doy := (153 * mp + 2) / 5 + d - 1 in
  let doe := yoe * 365 + yoe / 4 - yoe / 100 + doy in
  era * 146097 + doe - 719468.

Definition civil_from_days (z : Z) : Z * Z * Z :=
  let z := z + 719468 in
  let era := z / 146097 in
  let doe := z - era * 146097 in
  let yoe := (doe - doe / 1460 + doe / 36524 - doe / 146096) / 365 in
  let doy := doe - (365 * yoe + yoe / 4 - yoe / 100) in
  let mp := (5 * doy + 2) / 153 in
  let d := doy - (153 * mp + 2) / 5 + 1 in
  let m := if mp <? 10 then mp + 3 else mp - 9 in
  let y := yoe + era * 400 + (if m <=? 2 then 1 else 0) in
  (y, m, d).

Definition field (cs : list ascii) (from len : nat) : option Z :=
  let run := take len (drop from cs) in
  if Nat.eqb (length run) len then number 0 run else None.

Definition char_is (cs : list ascii) (i : nat) (c : ascii) : bool :=
  match cs !! i with
  | Some c' => Ascii.eqb c c'
  | None => false
  end.

Definition fromisoformat (s : string) : option datetime :=
  let cs := list_ascii_of_string s in
  let n := length cs in
  if negb (Nat.eqb n 19 || Nat.eqb n 26) then None
  else if negb (char_is cs 4 "-" && char_is cs 7 "-" && char_is cs 10 "T"
                && char_is cs 13 ":" && char_is cs 16 ":") then None
  else if Nat.eqb n 26 && negb (char_is cs 19 ".") then None
  else
    y ← field cs 0 4; mo ← field cs 5 2; d ← field cs 8 2;
    h ← field cs 11 2; mi ← field cs 14 2; sec ← field cs 17 2;
    us ← (if Nat.eqb n 26 then field cs 20 6 else Some 0);
    if (1 <=? y) && (1 <=? mo) && (mo <=? 12) && (1 <=? d)
       && (d <=? days_in_month y mo) && (h <? 24) && (mi <? 60) && (sec <? 60)
    then Some (Naive ((((days_from_civil y mo d * 24 + h) * 60 + mi) * 60 + sec)
                        * 1000000 + us))
    else None.

(** [width] decimal digits of [z], most significant first. *)
Fixpoint digits (width : nat) (z : Z) : string :=
  match width with
  | O => ""
  | S width' =>
      digits width' (z / 10) +:+
      String (ascii_of_nat (Z.to_nat (48 + z mod 10))) ""
  end.

Definition format (sep : string) (t : Z) : string :=
  let day := t / 86400000000 in
  let rest := t mod 86400000000 in
  let us := rest mod 1000000 in
  let secs := rest / 1000000 in
  let '(y, m, d) := civil_from_days day in
  digits 4 y +:+ "-" +:+ digits 2 m +:+ "-" +:+ digits 2 d +:+ sep +:+
  digits 2 (secs / 3600) +:+ ":" +:+ digits 2 (secs / 60 mod 60) +:+ ":" +:+
  digits 2 (secs mod 60) +:+
  (if us =? 0 then "" else "." +:+ digits 6 us).

Definition isoformat (t : Z) : string := format "T" t.

(** [str(datetime)] separates the date and the time by a space. *)
Definition str (t : Z) : string := format " " t.

End PyDatetime.

(** *** alexaSkill/app.py: the entry point

    The request of an event: a launch request, an intent request with the
    name of its intent, or a request of another type. An event may lack
    its request. *)
Inductive SkillRequest :=
  | LaunchRequest
  | IntentRequestOf (intent_name : string) (request : IntentRequest)
  | OtherRequest.

(** What the skill answers: a spoken response, or the response of
    [handle_play_audio] with its AudioPlayer.Play directive. *)
Inductive SkillResponse :=
  | Spoken (r : Response)
  | AudioPlay (text play_behavior token url : string) (offset : Z)
              (end_session : bool).

(** A datum sent to CloudWatch: name, timestamp, value. *)
Definition Metric : Type := string * Z * Z.

(** The world of the skill: the world, and the metrics sent so far. *)
Record SkillWorld := mkSkillWorld {
  sk_world : World;
  sk_metrics : list Metric
}.

Inductive SkillOutcome :=
  | Responded (r : SkillResponse) (sw : SkillWorld)
  | SkillRaised (e : exn) (sw : SkillWorld).

Definition skill_world_of (o : SkillOutcome) : SkillWorld :=
  match o with Responded _ sw => sw | SkillRaised _ sw => sw end.

Definition skill_response_of (o : SkillOutcome) : option SkillResponse :=
  match o with Responded r _ => Some r | SkillRaised _ _ => None end.

(** The session flag of a response. *)
Definition ends_session (r : SkillResponse) : bool :=
  match r with
  | Spoken r => shouldEndSession r
  | AudioPlay _ _ _ _ _ end_session => end_session
  end.

(** A handler of the skill run in the world of the skill. *)
Definition respond (m : M Response) (sw : SkillWorld) : SkillOutcome :=
  match m (sk_world sw) with
  | Ok r w' => Responded (Spoken r) (mkSkillWorld w' (sk_metrics sw))
  | Raised e w' => SkillRaised e (mkSkillWorld w' (sk_metrics sw))
  end.

Definition on_launch : Response :=
  build_apl_response
    "Welcome to the FLRA Bot. You can ask for the latest updates or set your preferences."
    "Welcome to FLRA Bot"
    "Ask for the latest FLRA decisions or press releases.".

Definition handle_play_audio : SkillResponse :=
  AudioPlay "Playing the requested audio..." "REPLACE_ALL" "some-audio-token"
            "https://your-audio-file-host/audio-sample.mp3" 0 true.

(** ** A concrete scenario

    The data of the end-to-end scenario: a user "u1" with daily frequency
    and topic "press" who was never notified, a user "u2" whose topic
    matches no feed, one item of each feed, and a clock that is read at
    noon of 2024-01-01 and then once a day. *)
Module Scenario.

Definition clock (k : nat) : Z := 1704110400000000 + Z.of_nat k * 86400000000.

Definition midnight : string := "2024-01-01T00:00:00".

(** A clock that stands still, [h] hours after that midnight. *)
Definition at_hours (h : Z) : nat → Z :=
  fun _ => 1704067200000000 + timedelta_hours h.

Definition decision_item : NewItem :=
  mkNewItem "https://www.flra.gov/decisions/1" "Decision 1"
            "https://www.flra.gov/decisions/1" "- a decision" ""
            "https://www.flra.gov/feeds/decisions.xml".

Definition press_item : NewItem :=
  mkNewItem "https://www.flra.gov/press/1" "Press release 1"
            "https://www.flra.gov/press/1" "- a release" ""
            "https://www.flra.gov/feeds/press-releases.xml".

Definition new_items : list NewItem := [decision_item; press_item].

Definition u1 : UserPref := mkUserPref (Some "daily") (Some "press") None None.

Definition stored_decision : FeedItem :=
  mkFeedItem (Some "Decision 1") "https://www.flra.gov/decisions/1"
             "Mon, 01 Jan 2024" "Text" (Some "- a decision") []
             (Some "https://www.flra.gov/feeds/decisions.xml")
             "2024-01-01T00:00:00".

(** The same link with another title and another content. *)
Definition changed_entry : Entry :=
  mkEntry "https://www.flra.gov/decisions/1" "Decision 1 (revised)"
          "Another text" None.

Definition empty_world : World := mkWorld ∅ ∅ 0 [] [] [] [].

Definition world_u1 : World := with_prefs_table {[ "u1" := u1 ]} empty_world.
Definition world_stored : World :=
  with_feed_table {[ "https://www.flra.gov/decisions/1" := stored_decision ]}
                  empty_world.

(** Feeds with one entry, the stored decision, in the decisions feed. *)
Definition feeds (rss_url : string) : list Entry :=
  if String.eqb rss_url "https://www.flra.gov/feeds/decisions.xml"
  then [changed_entry] else [].

Definition anonymous_request : IntentRequest :=
  mkIntentRequest None (Some "weekly") (Some "press").

Definition llm_down (n : nat) : llm_outcome := LlmRaises.
Definition comprehend_down (n : nat) : comprehend_outcome := ComprehendRaises.

End Scenario.

Section Pipeline.

Set Default Proof Using "Type".

(** The wall clock: the reading returned by the [k]-th call of
    [datetime.utcnow()]. *)
Variable clock : nat -> Z.

(** [datetime.fromisoformat]; [None] is a [ValueError]. *)
Variable fromisoformat : string -> option datetime.
(** [datetime.isoformat()] and [str(datetime)] of a naive datetime. *)
Variable isoformat : Z -> string.
Variable str_of_datetime : Z -> string.

(** The replies of the summarizer and of Comprehend to their [n]-th
    call; [comprehend_enabled] is the COMPREHEND_ENABLED setting. *)
Variable llm_reply : nat -> llm_outcome.
Variable comprehend_enabled : bool.
Variable comprehend_reply : nat -> comprehend_outcome.

Local Open Scope run_scope.

Definition utcnow : M Z :=
  fun w => Ok (clock (ticks w)) (with_ticks (S (ticks w)) w).

Definition datetime_fromisoformat (s : string) : M datetime :=
  match fromisoformat s with
  | Some d => ret d
  | None => raise ValueError
  end.

(** [now - last_dt] where [now] is naive. *)
Definition datetime_sub (now : Z) (last_dt : datetime) : M timedelta :=
  match last_dt with
  | Naive t => ret (now - t)
  | Aware _ => raise TypeError
  end.

(** *** scheduler/app.py: is_user_due_for_notification *)
Definition is_user_due_for_notification
    (frequency : string) (last_notified : option string) : M bool :=
  if negb (truthy last_notified) then ret true
  else
    last_dt <- datetime_fromisoformat (default "" last_notified) ;;
    now <- utcnow ;;
    if String.eqb frequency "daily" then
      d <- datetime_sub now last_dt ;; ret (timedelta_days 1 <=? d)%Z
    else if String.eqb frequency "weekly" then
      d <- datetime_sub now last_dt ;; ret (timedelta_days 7 <=? d)%Z
    else
      d <- datetime_sub now last_dt ;; ret (timedelta_days 1 <=? d)%Z.

(** The instant a stored [LastNotifiedTimestamp] stands for: [Some None]
    when it is absent (or the empty text, which is falsy as well),
    [Some (Some t)] when it is the text of the naive datetime [t], and [None]
    when the due-ness check raises on it. *)
Definition last_notified_at (last_notified : option string) : option (option Z) :=
  if negb (truthy last_notified) then Some None
  else match fromisoformat (default "" last_notified) with
       | Some (Naive t) => Some (Some t)
       | _ => None
       end.

(** *** scheduler/app.py: ingestion *)

Definition item_exists (item_id : string) : M bool :=
  fun w => Ok (bool_decide (is_Some (feed_table w !! item_id))) w.

Definition feed_put_item (item_id : string) (item : FeedItem) : M unit :=
  fun w => Ok tt (with_feed_table (<[item_id := item]> (feed_table w)) w).

(** The request is sent inside the [try]; every exception of the call, of
    the decoding and of the member access ends in the [except] branch. *)
Definition summarize_text (title content api_key : string) : M string :=
  fun w =>
    let w' := with_llm_calls (llm_calls w ++ [(title, content)]) w in
    match llm_reply (length (llm_calls w)) with
    | LlmJson (Some summary) => Ok summary w'
    | LlmJson None => Ok "No summary available." w'
    | LlmRaises => Ok "Summary not available." w'
    end.

Definition detect_entities (content : string) : M (list Entity) :=
  fun w =>
    let w' := with_comprehend_calls (comprehend_calls w ++ [content]) w in
    match comprehend_reply (length (comprehend_calls w)) with
    | ComprehendResponse (Some entities) =>
        Ok (map (fun e => mkEntity (Text e) (Type_ e)) entities) w'
    | ComprehendResponse None => Ok [] w'
    | ComprehendRaises => Ok [] w'
    end.

(** The body of the loop of [process_feed]. The default of
    [getattr(entry, "published", str(datetime.utcnow()))] is evaluated
    whether or not the entry has a publication date. *)
Definition process_entry (rss_url llm_api_key : string)
    (new_items : list NewItem) (entry : Entry) : M (list NewItem) :=
  let item_id := link entry in
  found <- item_exists item_id ;;
  if negb found then
    summary <- summarize_text (title entry) (description entry) llm_api_key ;;
    entities <- (if comprehend_enabled then detect_entities (description entry)
                 else ret []) ;;
    now_published <- utcnow ;;
    now_created <- utcnow ;;
    (feed_put_item item_id
       {| Title := Some (title entry);
          Link := link entry;
          PublishedDate := default (str_of_datetime now_published) (published entry);
          Content := description entry;
          Summary := Some summary;
          Entities := entities;
          FeedSource := Some rss_url;
          CreatedTimestamp := isoformat now_created |} ;;;
     ret (new_items ++
            [ {| n_ItemId := item_id;
                 n_Title := title entry;
                 n_Link := link entry;
                 n_Summary := summary;
                 n_PublishedDate := default "" (published entry);
                 n_FeedSource := rss_url |} ]))
  else ret new_items.

(** [process_feed] on the entries that [feedparser.parse(rss_url)] gave. *)
Definition process_entries (rss_url llm_api_key : string)
    (entries : list Entry) : M (list NewItem) :=
  for_each (process_entry rss_url llm_api_key) entries [].

(** What [feedparser.parse] returns for a URL. *)
Variable fetch_feed : string -> list Entry.

Definition process_feed (rss_url llm_api_key : string) : M (list NewItem) :=
  process_entries rss_url llm_api_key (fetch_feed rss_url).

(** *** scheduler/app.py: notification *)

Definition post_event (ev : EventPayload) : M unit :=
  fun w => Ok tt (with_posted (posted w ++ [ev]) w).

(** Every call is recorded in [notifications]; without a token nothing is
    posted. Failures of the post are printed only. *)
Definition send_proactive_notification (user_id : string)
    (items : list NewItem) (alexa_token : string) : M unit :=
  (fun w => Ok tt (with_notifications (notifications w ++ [(user_id, items)]) w)) ;;;
  if negb (truthy (Some alexa_token)) then ret tt
  else
    t_stamp <- utcnow ;;
    t_ref <- utcnow ;;
    t_expiry <- utcnow ;;
    post_event
      {| ev_timestamp := isoformat (replace_microsecond_0 t_stamp) +:+ "Z";
         ev_referenceId := t_ref;
         ev_expiryTime :=
           isoformat (replace_microsecond_0 (t_expiry + timedelta_hours 1)) +:+ "Z";
         ev_count := length items;
         ev_user := user_id |}.

(** [update_item] with [SET LastNotifiedTimestamp = :ts]: the other
    attributes stay, and a missing record is created. *)
Definition prefs_update_last_notified (user_id ts : string) : M unit :=
  fun w =>
    let old := default (mkUserPref None None None None) (prefs_table w !! user_id) in
    Ok tt (with_prefs_table
             (<[user_id :=
                  mkUserPref (NotificationFrequency old) (PreferredTopic old)
                             (Some ts) (UpdatedTimestamp old)]> (prefs_table w)) w).

Definition prefs_scan : M (list (string * UserPref)) :=
  fun w => Ok (map_to_list (prefs_table w)) w.

(** The body of the loop of [notify_users]. *)
Definition notify_user (new_items : list NewItem) (alexa_token : string)
    (_ : unit) (user_pref : string * UserPref) : M unit :=
  let user_id := fst user_pref in
  let frequency := default "daily" (NotificationFrequency (snd user_pref)) in
  let topic := default "decisions" (PreferredTopic (snd user_pref)) in
  let last_notified := LastNotifiedTimestamp (snd user_pref) in
  due <- is_user_due_for_notification frequency last_notified ;;
  if negb due then ret tt
  else
    let filtered_items := filter_by_topic topic new_items in
    match filtered_items with
    | _ :: _ =>
        send_proactive_notification user_id filtered_items alexa_token ;;;
        now <- utcnow ;;
        prefs_update_last_notified user_id (isoformat now)
    | [] => ret tt
    end.

Definition notify_users (new_items : list NewItem) (alexa_token : string) : M unit :=
  all_prefs <- prefs_scan ;;
  match all_prefs with
  | [] => ret tt
  | _ :: _ => for_each (notify_user new_items alexa_token) all_prefs tt
  end.

(** The secret as [get_secrets] returns it: the decoded JSON object, or
    the empty dictionary when the retrieval raised. *)
Variable secret_value : option (gmap string string).

Definition get_secrets : gmap string string := default ∅ secret_value.

(** *** scheduler/app.py: lambda_handler; the result is the number of
    new items of the response body. *)
Definition scheduler_lambda_handler : M nat :=
  let secrets := get_secrets in
  let llm_api_key := default "" (secrets !! "LLM_API_KEY") in
  let alexa_token := default "" (secrets !! "ALEXA_OAUTH_TOKEN") in
  new_items <- for_each
                 (fun new_items rss_url =>
                    items <- process_feed rss_url llm_api_key ;;
                    ret (new_items ++ items))
                 MULTIPLE_FEEDS [] ;;
  match new_items with
  | _ :: _ => notify_users new_items alexa_token ;;; ret (length new_items)
  | [] => ret (length new_items)
  end.

(** *** alexaSkill/app.py *)

Definition load_user_preferences (user_id : string) : M (option UserPref) :=
  fun w => Ok (prefs_table w !! user_id) w.

Definition feed_scan : M (list FeedItem) :=
  fun w => Ok (snd <$> map_to_list (feed_table w)) w.

(** The filter, the sort and the slice of [handle_get_latest_updates]. *)
Definition latest_items (topic : string) (items : list FeedItem) : list FeedItem :=
  let filtered :=
    List.filter (fun it => contains topic (default "" (FeedSource it))) items in
  let items_sorted := sorted_reverse CreatedTimestamp filtered in
  take 3 items_sorted.

(** The loop that builds the speech text; [i] is the index of [enumerate]. *)
Fixpoint speech_of_items (i : nat) (items : list FeedItem) (speech_text : string) : string :=
  match items with
  | [] => speech_text
  | item :: items' =>
      speech_of_items (S i) items'
        (speech_text +:+ "Update " +:+ pretty (S i) +:+ ": " +:+ py_str (Title item)
           +:+ ". " +:+ "Summary: " +:+ py_str (Summary item) +:+ "
")
  end.

(** A user without a stored record has the empty dictionary as
    preferences, so the topic is the default. *)
Definition handle_get_latest_updates (request : IntentRequest) : M Response :=
  let user_id := get_alexa_user_id request in
  user_prefs <- load_user_preferences user_id ;;
  let topic := default "decisions" (user_prefs ≫= PreferredTopic) in
  items <- feed_scan ;;
  match latest_items topic items with
  | [] => ret (build_plaintext_response
                 ("No new " +:+ topic +:+ " updates at this time."))
  | (_ :: _) as latest =>
      let speech_text :=
        speech_of_items 0 latest ("Here are the latest " +:+ topic +:+ " updates:
") in
      ret (build_apl_response speech_text "Latest FLRA Updates" speech_text)
  end.

Definition prefs_put_item (user_id : string) (item : UserPref) : M unit :=
  fun w => Ok tt (with_prefs_table (<[user_id := item]> (prefs_table w)) w).

Definition handle_set_preference (request : IntentRequest) : M Response :=
  let user_id := get_alexa_user_id request in
  let frequency := default "daily" (slot_frequency request) in
  let topic := default "decisions" (slot_topic request) in
  now <- utcnow ;;
  prefs_put_item user_id
    {| NotificationFrequency := Some frequency;
       PreferredTopic := Some topic;
       LastNotifiedTimestamp := None;
       UpdatedTimestamp := Some (isoformat now) |} ;;;
  ret (build_plaintext_response
         ("Got it. Preference set to " +:+ frequency +:+ " updates for " +:+ topic +:+ ".")).

(** A missing record and a record without attributes are both falsy. *)
Definition handle_get_preference (request : IntentRequest) : M Response :=
  let user_id := get_alexa_user_id request in
  user_prefs <- load_user_preferences user_id ;;
  match user_prefs with
  | None => ret (build_plaintext_response "I don't have any preferences for you yet.")
  | Some p =>
      let freq := default "daily" (NotificationFrequency p) in
      let topic := default "decisions" (PreferredTopic p) in
      ret (build_plaintext_response
             ("Your preference is " +:+ freq +:+ " updates about " +:+ topic +:+ "."))
  end.

(** [put_custom_metric]: the datum carries a clock reading; a failure of
    the call is printed only. *)
Definition put_custom_metric (metric_name : string) (value : Z)
    (sw : SkillWorld) : SkillWorld :=
  match utcnow (sk_world sw) with
  | Ok now w' => mkSkillWorld w' (sk_metrics sw ++ [(metric_name, now, value)])
  | Raised _ w' => mkSkillWorld w' (sk_metrics sw)
  end.

Definition on_intent (intent_name : string) (request : IntentRequest)
    (sw : SkillWorld) : SkillOutcome :=
  let sw := put_custom_metric (intent_name +:+ "Count") 1 sw in
  if String.eqb intent_name "GetLatestUpdatesIntent" then
    respond (handle_get_latest_updates request) sw
  else if String.eqb intent_name "SetPreferenceIntent" then
    respond (handle_set_preference request) sw
  else if String.eqb intent_name "GetPreferenceIntent" then
    respond (handle_get_preference request) sw
  else if String.eqb intent_name "PlayAudioIntent" then
    Responded handle_play_audio sw
  else
    Responded (Spoken (build_plaintext_response "I don't know that intent.")) sw.

Definition skill_lambda_handler (event : option SkillRequest)
    (sw : SkillWorld) : SkillOutcome :=
  let sw := put_custom_metric "SkillInvocationCount" 1 sw in
  match event with
  | None => Responded (Spoken (build_plaintext_response "Invalid request.")) sw
  | Some LaunchRequest => Responded (Spoken on_launch) sw
  | Some (IntentRequestOf intent_name request) => on_intent intent_name request sw
  | Some OtherRequest =>
      Responded (Spoken (build_plaintext_response
                           "Sorry, I didn't understand that.")) sw
  end.

(** ** Substrings *)

Lemma append_cons (a : ascii) (s t : string) :
  String a s +:+ t = String a (s +:+ t).
Proof. reflexivity. Qed.

Lemma prefix_occurs (needle hay : string) :
  String.prefix needle hay = true ↔ ∃ post, hay = needle +:+ post.
Proof.
  revert hay. induction needle as [|a needle IH]; intros hay; simpl.
  - destruct hay; split; eauto.
  - destruct hay as [|b hay]; simpl.
    + split; [discriminate | intros [post H]; discriminate].
    + setoid_rewrite append_cons. destruct (ascii_dec a b) as [->|Hne].
      * rewrite IH. split; intros [post H]; exists post; congruence.
      * split; [discriminate | intros [post H]; congruence].
Qed.

Lemma append_nil (t : string) : "" +:+ t = t.
Proof. reflexivity. Qed.

Lemma contains_unfold (needle hay : string) :
  contains needle hay =
  if String.prefix needle hay then true
  else match hay with
       | EmptyString => false
       | String _ hay' => contains needle hay'
       end.
Proof. by destruct hay. Qed.

Lemma contains_occurs (needle hay : string) :
  contains needle hay = true ↔ occurs_in needle hay.
Proof.
  unfold occurs_in. induction hay as [|c hay IH]; rewrite contains_unfold;
    destruct (String.prefix needle _) eqn:Hp.
  - apply prefix_occurs in Hp as [post Hp]. split; [|done].
    intros _. by exists "", post.
  - split; [discriminate|]. intros ([|c pre] & post & H); [|discriminate].
    assert (String.prefix needle "" = true) by (apply prefix_occurs; eauto).
    congruence.
  - apply prefix_occurs in Hp as [post Hp]. split; [|done].
    intros _. by exists "", post.
  - rewrite IH. split.
    + intros (pre & post & ->). by exists (String c pre), post.
    + intros ([|c' pre] & post & H).
      * rewrite append_nil in H.
        assert (String.prefix needle (String c hay) = true)
          by (apply prefix_occurs; eauto).
        congruence.
      * rewrite append_cons in H. injection H as -> ->. eauto.
Qed.

#[global] Instance occurs_in_dec needle hay : Decision (occurs_in needle hay).
Proof.
  destruct (contains needle hay) eqn:H.
  - left. by apply contains_occurs.
  - right. intros H'%contains_occurs. congruence.
Defined.

Lemma contains_empty (hay : string) : contains "" hay = true.
Proof. destruct hay; reflexivity. Qed.

(** ** The topic filter *)

Lemma filter_by_topic_acc (topic : string) (items acc : list NewItem) :
  fold_left
    (fun filtered_items item =>
       if contains topic (n_FeedSource item) then filtered_items ++ [item]
       else filtered_items)
    items acc
  = acc ++ filter (λ it, occurs_in topic (n_FeedSource it)) items.
Proof.
  revert acc. induction items as [|it items IH]; intros acc; simpl.
  - by rewrite app_nil_r.
  - rewrite IH. destruct (contains topic (n_FeedSource it)) eqn:Hc.
    + rewrite filter_cons_True by (by apply contains_occurs).
      by rewrite <- app_assoc.
    + rewrite filter_cons_False; [done|].
      intros H%contains_occurs. congruence.
Qed.

Lemma filter_by_topic_filter (topic : string) (items : list NewItem) :
  filter_by_topic topic items
  = filter (λ it, occurs_in topic (n_FeedSource it)) items.
Proof. unfold filter_by_topic. by rewrite filter_by_topic_acc. Qed.

(** ** The stable descending sort *)

Section sorting.
Context {A : Type} (key : A → string).

Let desc (a b : A) : Prop := String.le (key b) (key a).

Lemma insert_desc_Permutation (x : A) (l : list A) :
  insert_desc key x l ≡ₚ x :: l.
Proof.
  induction l as [|y l IH]; simpl; [done|].
  destruct (String.leb (key y) (key x)); [done|].
  rewrite IH. apply Permutation_swap.
Qed.

Lemma sorted_reverse_Permutation (l : list A) : sorted_reverse key l ≡ₚ l.
Proof.
  induction l as [|x l IH]; simpl; [done|].
  by rewrite insert_desc_Permutation, IH.
Qed.

Lemma insert_desc_HdRel (a x : A) (l : list A) :
  desc a x → HdRel desc a l → HdRel desc a (insert_desc key x l).
Proof.
  intros Hax Hal. destruct l as [|y l]; simpl; [by constructor|].
  destruct (String.leb (key y) (key x)); constructor; [done|].
  by inversion Hal.
Qed.

Lemma insert_desc_Sorted (x : A) (l : list A) :
  Sorted desc l → Sorted desc (insert_desc key x l).
Proof.
  induction 1 as [|y l Hl IH Hhd]; simpl; [by repeat constructor|].
  destruct (String.leb (key y) (key x)) eqn:Hle.
  - constructor; [by constructor|]. constructor. unfold desc, String.le.
    by rewrite Hle.
  - constructor; [done|]. apply insert_desc_HdRel; [|done].
    unfold desc. destruct (total String.le (key x) (key y)) as [H|H]; [done|].
    unfold String.le in H. by rewrite Hle in H.
Qed.

Lemma sorted_reverse_Sorted (l : list A) : Sorted desc (sorted_reverse key l).
Proof.
  induction l as [|x l IH]; simpl; [constructor|].
  by apply insert_desc_Sorted.
Qed.

(** Stability: the records of one key keep their order. *)
Lemma insert_desc_stable (k : string) (x : A) (l : list A) :
  filter (λ a, key a = k) (insert_desc key x l)
  = filter (λ a, key a = k) (x :: l).
Proof.
  induction l as [|y l IH]; simpl; [done|].
  destruct (String.leb (key y) (key x)) eqn:Hle; [done|].
  assert (key y ≠ key x) as Hne.
  { intros Heq. rewrite Heq in Hle.
    pose proof (reflexivity (R:=String.le) (key x)) as Hr.
    unfold String.le in Hr. by rewrite Hle in Hr. }
  destruct (decide (key x = k)) as [Hx|Hx].
  - rewrite (filter_cons_False _ y) by congruence.
    rewrite IH. rewrite !(filter_cons_True _ x) by done.
    by rewrite (filter_cons_False _ y) by congruence.
  - rewrite (filter_cons_False _ x) by done.
    destruct (decide (key y = k)).
    + rewrite !(filter_cons_True _ y) by done.
      by rewrite IH, (filter_cons_False _ x) by done.
    + rewrite !(filter_cons_False _ y) by done.
      by rewrite IH, (filter_cons_False _ x) by done.
Qed.

Lemma sorted_reverse_stable (k : string) (l : list A) :
  filter (λ a, key a = k) (sorted_reverse key l) = filter (λ a, key a = k) l.
Proof.
  induction l as [|x l IH]; simpl; [done|].
  rewrite insert_desc_stable.
  destruct (decide (key x = k)).
  - by rewrite !(filter_cons_True _ x), IH by done.
  - by rewrite !(filter_cons_False _ x), IH by done.
Qed.

(** A list is determined by being in descending order and stable with
    respect to [l]: [sorted_reverse key l] is the only such list, so it is
    the list that any stable descending sort returns. *)
Lemma desc_head_max (x : A) (l : list A) :
  Sorted desc (x :: l) → ∀ y, y ∈ x :: l → String.le (key y) (key x).
Proof.
  intros Hs y Hy.
  assert (Transitive desc) as Htrans.
  { intros a b c Hab Hbc. unfold desc in *. by etrans. }
  apply (Sorted_StronglySorted desc) in Hs.
  apply StronglySorted_inv in Hs as [_ Hall].
  apply elem_of_cons in Hy as [->|Hy]; [done|].
  rewrite Forall_forall in Hall. by apply Hall.
Qed.

Lemma stable_sort_unique (l1 l2 : list A) :
  Sorted desc l1 → Sorted desc l2 →
  (∀ k, filter (λ a, key a = k) l1 = filter (λ a, key a = k) l2) →
  l1 = l2.
Proof.
  revert l2. induction l1 as [|x l1 IH]; intros l2 H1 H2 Hf.
  - destruct l2 as [|y l2]; [done|]. specialize (Hf (key y)).
    by rewrite filter_nil, filter_cons_True in Hf.
  - destruct l2 as [|y l2].
    { specialize (Hf (key x)). by rewrite filter_cons_True, filter_nil in Hf. }
    assert (key x = key y) as Hxy.
    { apply (anti_symm String.le).
      - apply (desc_head_max y l2 H2).
        eapply (list_elem_of_filter (λ a, key a = key x)).
        rewrite <- Hf, filter_cons_True by done. by left.
      - apply (desc_head_max x l1 H1).
        eapply (list_elem_of_filter (λ a, key a = key y)).
        rewrite Hf, filter_cons_True by done. by left. }
    pose proof (Hf (key x)) as Hx.
    rewrite !filter_cons_True in Hx by done.
    injection Hx as -> Hx. f_equal.
    apply IH; [by inversion H1|by inversion H2|].
    intros k. specialize (Hf k). destruct (decide (key y = k)).
    + rewrite !filter_cons_True in Hf by done. by injection Hf.
    + by rewrite !filter_cons_False in Hf.
Qed.

End sorting.

(** ** The due-ness check *)

Lemma threshold_cases (frequency : string) :
  threshold frequency
  = if decide (frequency = "weekly") then timedelta_days 7 else timedelta_days 1.
Proof.
  unfold threshold. destruct (String.eqb_spec frequency "weekly");
    by destruct (decide _).
Qed.

(** The three branches of the code compare with the threshold. *)
Lemma is_user_due_for_notification_unfold (frequency : string)
    (last_notified : option string) (w : World) :
  is_user_due_for_notification frequency last_notified w =
  if negb (truthy last_notified) then Ok true w
  else match fromisoformat (default "" last_notified) with
       | None => Raised ValueError w
       | Some (Aware _) => Raised TypeError (with_ticks (S (ticks w)) w)
       | Some (Naive t) =>
           Ok (threshold frequency <=? clock (ticks w) - t)
              (with_ticks (S (ticks w)) w)
       end.
Proof.
  unfold is_user_due_for_notification, threshold.
  destruct (negb (truthy last_notified)); [done|].
  unfold bind, datetime_fromisoformat, utcnow.
  destruct (fromisoformat (default "" last_notified)) as [[t|t]|]; simpl;
    [| |done].
  - destruct (String.eqb_spec frequency "daily") as [->|]; [done|].
    by destruct (String.eqb frequency "weekly").
  - destruct (String.eqb_spec frequency "daily") as [->|]; [done|].
    by destruct (String.eqb frequency "weekly").
Qed.

(** C1. The due-ness check returns true when the last-notified timestamp
    is absent; otherwise it returns true exactly when the clock reading
    minus the last-notified instant is at least seven days for the
    frequency "weekly", and at least one day for "daily" and for every
    other frequency. *)
Theorem is_user_due_for_notification_rule (frequency : string)
    (last_notified : option string) (last : option Z) (w : World) :
  last_notified_at last_notified = Some last →
  ∃ due : bool,
    result_of (is_user_due_for_notification frequency last_notified w) = Some due
    ∧ (due = true ↔
       match last with
       | None => True
       | Some t =>
           (if decide (frequency = "weekly") then timedelta_days 7
            else timedelta_days 1) ≤ clock (ticks w) - t
       end).
Proof.
  unfold last_notified_at. rewrite is_user_due_for_notification_unfold.
  destruct (negb (truthy last_notified)).
  - intros [= <-]. by exists true.
  - destruct (fromisoformat (default "" last_notified)) as [[t|t]|]; [|done..].
    intros [= <-]. eexists. split; [done|].
    rewrite threshold_cases. apply Z.leb_le.
Qed.

(** The check is due for ever once it is due, as long as the clock does
    not go back. *)
Lemma is_user_due_for_notification_later (frequency : string)
    (last_notified : option string) (w1 w2 : World) :
  result_of (is_user_due_for_notification frequency last_notified w1) = Some true →
  clock (ticks w1) ≤ clock (ticks w2) →
  result_of (is_user_due_for_notification frequency last_notified w2) = Some true.
Proof.
  rewrite !is_user_due_for_notification_unfold.
  destruct (negb (truthy last_notified)); [done|].
  destruct (fromisoformat (default "" last_notified)) as [[t|t]|]; [|done..].
  simpl. intros [= H%Z.leb_le] Hle. f_equal. apply Z.leb_le. lia.
Qed.

(** With a clock that does not go back, a record that is due at the start
    of a run is due at every clock reading of the run. *)
Lemma is_user_due_for_notification_through_run (frequency : string)
    (last_notified : option string) (w : World) :
  (∀ i j : nat, (i ≤ j)%nat → clock i ≤ clock j) →
  result_of (is_user_due_for_notification frequency last_notified w) = Some true →
  ∀ w0, (ticks w ≤ ticks w0)%nat →
        result_of (is_user_due_for_notification frequency last_notified w0)
        = Some true.
Proof.
  intros Hmono Hdue w0 Hw0.
  eapply is_user_due_for_notification_later; [exact Hdue|by apply Hmono].
Qed.


(** ** The topic filter of the notifications *)

(** C4. The relevant items are exactly the subsequence, in the original
    order, of the items whose source contains the topic as a
    case-sensitive substring. *)
Theorem filter_by_topic_subsequence (topic : string) (items : list NewItem) :
  filter_by_topic topic items
  = filter (λ it, occurs_in topic (n_FeedSource it)) items
  ∧ filter_by_topic topic items `sublist_of` items
  ∧ (∀ it, it ∈ filter_by_topic topic items
           ↔ it ∈ items ∧ occurs_in topic (n_FeedSource it)).
Proof.
  rewrite filter_by_topic_filter. split; [done|]. split.
  - apply sublist_filter.
  - intros it. by rewrite list_elem_of_filter, (comm and).
Qed.

(** C5. The empty topic is the identity filter. *)
Theorem filter_by_topic_empty (items : list NewItem) :
  filter_by_topic "" items = items.
Proof.
  rewrite filter_by_topic_filter. induction items as [|it items IH]; [done|].
  rewrite filter_cons_True; [by rewrite IH|].
  apply contains_occurs, contains_empty.
Qed.

(** ** The query of the skill *)

Lemma filter_bool_decide {A} (f : A → bool) (P : A → Prop)
    `{∀ x, Decision (P x)} (l : list A) :
  (∀ x, f x = true ↔ P x) → List.filter f l = filter P l.
Proof.
  intros Hf. induction l as [|x l IH]; simpl; [done|].
  destruct (f x) eqn:Hx.
  - rewrite filter_cons_True by (by apply Hf). by rewrite IH.
  - rewrite filter_cons_False; [done|]. intros HP%Hf. congruence.
Qed.

(** C7. With the topic of the user's stored preference, or "decisions"
    when there is none, the query keeps exactly the stored items whose
    source contains the topic, sorts them in descending order of their
    creation text, the items of one creation text staying in the order of
    the scan, and answers with at most the first three of them. *)
Theorem handle_get_latest_updates_top3 (request : IntentRequest) (w : World) :
  let topic :=
    default "decisions"
      (prefs_table w !! get_alexa_user_id request ≫= PreferredTopic) in
  let items := (map_to_list (feed_table w)).*2 in
  let kept := filter (λ it, occurs_in topic (default "" (FeedSource it))) items in
  ∃ items_sorted : list FeedItem,
    items_sorted ≡ₚ kept
    ∧ Sorted newer_first items_sorted
    ∧ (∀ ts, filter (λ it, CreatedTimestamp it = ts) items_sorted
             = filter (λ it, CreatedTimestamp it = ts) kept)
    ∧ latest_items topic items = take 3 items_sorted
    ∧ (length (latest_items topic items) ≤ 3)%nat
    ∧ handle_get_latest_updates request w
      = Ok (match latest_items topic items with
            | [] => build_plaintext_response
                      ("No new " +:+ topic +:+ " updates at this time.")
            | (_ :: _) as latest =>
                let speech_text :=
                  speech_of_items 0 latest
                    ("Here are the latest " +:+ topic +:+ " updates:
") in
                build_apl_response speech_text "Latest FLRA Updates" speech_text
            end) w.
Proof.
  intros topic items kept.
  exists (sorted_reverse CreatedTimestamp kept).
  assert (latest_items topic items
          = take 3 (sorted_reverse CreatedTimestamp kept)) as Hlatest.
  { unfold latest_items, kept.
    by rewrite (filter_bool_decide _
                  (λ it, occurs_in topic (default "" (FeedSource it))))
      by (intros; apply contains_occurs). }
  split; [apply sorted_reverse_Permutation|].
  split; [apply (sorted_reverse_Sorted CreatedTimestamp)|].
  split; [intros ts; apply sorted_reverse_stable|].
  split; [done|]. split.
  - rewrite Hlatest, length_take. lia.
  - unfold handle_get_latest_updates, bind, load_user_preferences, feed_scan.
    fold items. fold topic. by destruct (latest_items topic items).
Qed.

(** ** Ingestion *)

Lemma process_entry_stored (rss_url llm_api_key : string)
    (new_items : list NewItem) (entry : Entry) (w : World) :
  is_Some (feed_table w !! link entry) →
  process_entry rss_url llm_api_key new_items entry w = Ok new_items w.
Proof.
  intros H. unfold process_entry, bind, item_exists.
  by rewrite bool_decide_eq_true_2.
Qed.

Lemma entities_rebuilt (entities : list Entity) :
  map (fun e => mkEntity (Text e) (Type_ e)) entities = entities.
Proof. induction entities as [|[??] ? IH]; simpl; by rewrite ?IH. Qed.

(** The summary and the entities that an entry gets in the world [w]. *)
Lemma process_entry_absent (rss_url llm_api_key : string)
    (new_items : list NewItem) (entry : Entry) (w : World) :
  feed_table w !! link entry = None →
  ∃ (summary : string) (entities : list Entity) (w' : World),
    process_entry rss_url llm_api_key new_items entry w
    = Ok (new_items ++
            [mkNewItem (link entry) (title entry) (link entry) summary
                       (default "" (published entry)) rss_url]) w'
    ∧ summary = match llm_reply (length (llm_calls w)) with
                | LlmJson (Some summary) => summary
                | LlmJson None => "No summary available."
                | LlmRaises => "Summary not available."
                end
    ∧ entities = (if comprehend_enabled then
                    match comprehend_reply (length (comprehend_calls w)) with
                    | ComprehendResponse (Some entities) => entities
                    | _ => []
                    end
                  else [])
    ∧ feed_table w'
      = <[link entry :=
            mkFeedItem (Some (title entry)) (link entry)
              (default (str_of_datetime (clock (ticks w))) (published entry))
              (description entry) (Some summary) entities (Some rss_url)
              (isoformat (clock (S (ticks w))))]> (feed_table w)
    ∧ llm_calls w' = llm_calls w ++ [(title entry, description entry)]
    ∧ comprehend_calls w'
      = comprehend_calls w ++ (if comprehend_enabled then [description entry] else [])
    ∧ prefs_table w' = prefs_table w
    ∧ notifications w' = notifications w
    ∧ posted w' = posted w
    ∧ ticks w' = S (S (ticks w)).
Proof.
  intros Hnone. unfold process_entry, bind, item_exists.
  rewrite bool_decide_eq_false_2 by (rewrite Hnone; by intros [??]).
  simpl. unfold summarize_text.
  destruct (llm_reply (length (llm_calls w))) as [|[summary|]];
    destruct comprehend_enabled; simpl; unfold detect_entities; simpl;
    try destruct (comprehend_reply (length (comprehend_calls w)))
      as [|[entities|]]; simpl;
    rewrite ?entities_rebuilt;
    do 3 eexists; (split; [reflexivity|]); simpl;
    rewrite ?app_nil_r; by repeat split.
Qed.

Lemma for_each_cons {A B} (body : B → A → M B) (x : A) (l : list A)
    (acc : B) (w : World) :
  for_each body (x :: l) acc w
  = match body acc x w with
    | Ok acc' w' => for_each body l acc' w'
    | Raised e w' => Raised e w'
    end.
Proof. reflexivity. Qed.

(** A run of [process_feed] never raises, keeps every stored record as it
    is, and makes one summarizer call and one new record per new item. *)
Lemma process_entries_run (rss_url llm_api_key : string)
    (entries : list Entry) (acc : list NewItem) (w : World) :
  ∃ (items : list NewItem) (w' : World),
    for_each (process_entry rss_url llm_api_key) entries acc w
    = Ok (acc ++ items) w'
    ∧ (∀ k it, feed_table w !! k = Some it → feed_table w' !! k = Some it)
    ∧ (∀ n, n ∈ items → feed_table w !! n_ItemId n = None)
    ∧ (∀ e, e ∈ entries → is_Some (feed_table w' !! link e))
    ∧ length (llm_calls w') = (length (llm_calls w) + length items)%nat
    ∧ size (feed_table w') = (size (feed_table w) + length items)%nat
    ∧ prefs_table w' = prefs_table w
    ∧ notifications w' = notifications w.
Proof.
  clear fromisoformat fetch_feed.
  revert acc w. induction entries as [|e entries IH]; intros acc w.
  - exists [], w. rewrite app_nil_r. simpl. repeat split; try done; try lia.
    all: intros e H; by apply elem_of_nil in H.
  - rewrite for_each_cons.
    destruct (feed_table w !! link e) as [it|] eqn:Hlook.
    + rewrite process_entry_stored by (by rewrite Hlook).
      destruct (IH acc w) as (items & w' & -> & Hkeep & Hnew & Hall & Hrest).
      exists items, w'. repeat split; try apply Hrest; try done.
      intros e' [->|H]%elem_of_cons; [|by apply Hall].
      rewrite (Hkeep _ _ Hlook). by eexists.
    + destruct (process_entry_absent rss_url llm_api_key acc e w Hlook)
        as (summary & entities & w1 & -> & _ & _ & Htab & Hllm & _ & Hprefs
            & Hnot & _ & _).
      destruct (IH (acc ++ [mkNewItem (link e) (title e) (link e) summary
                              (default "" (published e)) rss_url]) w1)
        as (items & w' & -> & Hkeep & Hnew & Hall & Hcalls & Hsize & Hp & Hn).
      eexists (_ :: items), w'. rewrite <- app_assoc. simpl.
      split; [done|]. repeat split.
      * intros k it Hk. apply Hkeep. rewrite Htab.
        rewrite lookup_insert_ne; [done|]. intros <-. congruence.
      * intros n [->|Hn']%elem_of_cons; [done|].
        specialize (Hnew n Hn'). rewrite Htab in Hnew.
        apply lookup_insert_None in Hnew. tauto.
      * intros e' [->|H]%elem_of_cons; [|by apply Hall].
        erewrite Hkeep; [by eexists|]. rewrite Htab. apply lookup_insert_eq.
      * rewrite Hcalls, Hllm, length_app. simpl. lia.
      * rewrite Hsize, Htab, map_size_insert_None by done. lia.
      * congruence.
      * congruence.
Qed.


(** A reply that decodes to a JSON object without a ["summary"] member is
    no failure for the code: the summary is then the default of the member
    access, another text than the one of the [except] branch. *)
Lemma summarize_text_without_summary (title content api_key : string) (w : World) :
  llm_reply (length (llm_calls w)) = LlmJson None →
  result_of (summarize_text title content api_key w) = Some "No summary available.".
Proof. intros H. unfold summarize_text. by rewrite H. Qed.


(** ** Notification *)

Lemma send_proactive_notification_effect (user_id : string)
    (items : list NewItem) (alexa_token : string) (w : World) :
  ∃ w' : World,
    send_proactive_notification user_id items alexa_token w = Ok tt w'
    ∧ notifications w' = notifications w ++ [(user_id, items)]
    ∧ prefs_table w' = prefs_table w
    ∧ feed_table w' = feed_table w
    ∧ (ticks w ≤ ticks w')%nat.
Proof.
  unfold send_proactive_notification, bind, utcnow, post_event.
  destruct (negb (truthy (Some alexa_token))); simpl;
    eexists; (split; [reflexivity|]); simpl; repeat split; lia.
Qed.

(** What one iteration of the loop of [notify_users] does. *)
Lemma notify_user_effect (new_items : list NewItem) (alexa_token : string)
    (user_id : string) (p : UserPref) (w : World) :
  let frequency := default "daily" (NotificationFrequency p) in
  let topic := default "decisions" (PreferredTopic p) in
  let last_notified := LastNotifiedTimestamp p in
  let filtered_items := filter_by_topic topic new_items in
  let old := default (mkUserPref None None None None) (prefs_table w !! user_id) in
  let o := notify_user new_items alexa_token tt (user_id, p) w in
  (ticks w ≤ ticks (world_of o))%nat
  ∧ (is_Some (last_notified_at last_notified) → o = Ok tt (world_of o))
  ∧ (result_of (is_user_due_for_notification frequency last_notified w) = Some true →
     filtered_items ≠ [] →
     notifications (world_of o) = notifications w ++ [(user_id, filtered_items)]
     ∧ ∃ k : nat,
         (ticks w ≤ k < ticks (world_of o))%nat
         ∧ prefs_table (world_of o)
           = <[user_id :=
                 mkUserPref (NotificationFrequency old) (PreferredTopic old)
                            (Some (isoformat (clock k))) (UpdatedTimestamp old)]>
               (prefs_table w))
  ∧ (filtered_items = [] →
     notifications (world_of o) = notifications w
     ∧ prefs_table (world_of o) = prefs_table w)
  ∧ (∀ u, u ≠ user_id → prefs_table (world_of o) !! u = prefs_table w !! u)
  ∧ (∃ extra, notifications (world_of o) = notifications w ++ extra
              ∧ Forall (λ n, n.1 = user_id) extra).
Proof.
  intros frequency topic last_notified filtered_items old o.
  subst o. unfold notify_user, bind. simpl.
  fold frequency topic last_notified filtered_items.
  unfold last_notified_at.
  rewrite is_user_due_for_notification_unfold.
  destruct (negb (truthy last_notified)) eqn:Ht; simpl.
  2: destruct (fromisoformat (default "" last_notified)) as [[t|t]|]; simpl.
  2: destruct (threshold frequency <=? clock (ticks w) - t) eqn:Hdue; simpl.
  all: try (repeat split;
              first [lia | done | by intros [??] | by intros [=]
                    | by exists []; rewrite app_nil_r]).
  all: destruct filtered_items as [|it its] eqn:Hf; simpl;
    [by repeat split;
        first [lia | done | by intros [??] | by exists []; rewrite app_nil_r]|].
  all: match goal with
       | |- context [send_proactive_notification ?u ?i ?t ?w0] =>
           destruct (send_proactive_notification_effect u i t w0)
             as (w1 & -> & Hn & Hp & _ & Hticks)
       end; simpl in *; unfold utcnow, prefs_update_last_notified; simpl.
  all: rewrite Hn, Hp.
  all: split; [lia|]. all: split; [done|].
  all: split; [intros _ _; split; [done|]; exists (ticks w1); split; [lia|done]|].
  all: split; [done|].
  all: split; [intros u Hu; by rewrite lookup_insert_ne|].
  all: eexists; split; [reflexivity|]; by repeat constructor.
Qed.

Lemma filter_none {A} (P : A → Prop) `{∀ x, Decision (P x)} (l : list A) :
  (∀ x, x ∈ l → ¬ P x) → filter P l = [].
Proof.
  induction l as [|x l IH]; intros Hl; [done|].
  rewrite filter_cons_False by (apply Hl; by left).
  apply IH. intros y Hy. apply Hl. by right.
Qed.

Lemma notify_users_unfold (new_items : list NewItem) (alexa_token : string)
    (w : World) :
  notify_users new_items alexa_token w
  = for_each (notify_user new_items alexa_token)
             (map_to_list (prefs_table w)) tt w.
Proof.
  unfold notify_users, bind, prefs_scan.
  by destruct (map_to_list (prefs_table w)).
Qed.

Lemma filter_user_app_other (user_id : string)
    (l extra : list (string * list NewItem)) :
  Forall (λ n, n.1 ≠ user_id) extra →
  filter (λ n, n.1 = user_id) (l ++ extra) = filter (λ n, n.1 = user_id) l.
Proof.
  intros H. rewrite filter_app.
  induction H as [|n extra Hn _ IH]; [by rewrite filter_nil, app_nil_r|].
  by rewrite filter_cons_False.
Qed.

(** The loop leaves a user alone whose records in the scan, if any, match
    no new item: whatever the outcome of the loop is. *)
Lemma notify_loop_untouched (new_items : list NewItem) (alexa_token : string)
    (user_id : string) (l : list (string * UserPref)) (w : World) :
  (∀ p, (user_id, p) ∈ l →
        filter_by_topic (default "decisions" (PreferredTopic p)) new_items = []) →
  let w' := world_of (for_each (notify_user new_items alexa_token) l tt w) in
  prefs_table w' !! user_id = prefs_table w !! user_id
  ∧ filter (λ n, n.1 = user_id) (notifications w')
    = filter (λ n, n.1 = user_id) (notifications w)
  ∧ (ticks w ≤ ticks w')%nat.
Proof.
  revert w. induction l as [|[u p] l IH]; intros w Hl; simpl; [done|].
  unfold bind.
  destruct (notify_user_effect new_items alexa_token u p w)
    as (Hticks & _ & _ & Hempty & Hother & extra & Hextra & Hall).
  assert (prefs_table (world_of (notify_user new_items alexa_token tt (u, p) w))
            !! user_id = prefs_table w !! user_id
          ∧ filter (λ n, n.1 = user_id)
              (notifications
                 (world_of (notify_user new_items alexa_token tt (u, p) w)))
            = filter (λ n, n.1 = user_id) (notifications w)) as [Hp Hn].
  { destruct (decide (u = user_id)) as [->|Hne].
    - destruct Hempty as [-> ->]; [|done]. apply Hl. by left.
    - split; [by apply Hother|]. rewrite Hextra.
      apply filter_user_app_other. eapply Forall_impl; [exact Hall|].
      simpl. congruence. }
  destruct (notify_user new_items alexa_token tt (u, p) w) as [[] w1|e w1];
    simpl in *; [|done].
  destruct (IH w1) as (Hp' & Hn' & Ht').
  { intros q Hq. apply Hl. by right. }
  split; [congruence|]. split; [congruence|lia].
Qed.

(** The loop returns when every record of the scan has a timestamp that
    the due-ness check accepts. *)
Lemma notify_loop_returns (new_items : list NewItem) (alexa_token : string)
    (l : list (string * UserPref)) (w : World) :
  (∀ u q, (u, q) ∈ l → is_Some (last_notified_at (LastNotifiedTimestamp q))) →
  ∃ w', for_each (notify_user new_items alexa_token) l tt w = Ok tt w'.
Proof.
  revert w. induction l as [|[u p] l IH]; intros w Hl; simpl; [by eexists|].
  unfold bind.
  destruct (notify_user_effect new_items alexa_token u p w)
    as (_ & Hok & _).
  rewrite Hok by (apply (Hl u); by left).
  apply IH. intros u' q Hq. apply (Hl u'). by right.
Qed.

(** The loop notifies a user once whose record is due at every clock
    reading of the run and matches a new item. *)
Lemma notify_loop_hit (new_items : list NewItem) (alexa_token : string)
    (user_id : string) (p : UserPref) (l : list (string * UserPref)) (w : World) :
  let topic := default "decisions" (PreferredTopic p) in
  NoDup l.*1 →
  (∀ u q, (u, q) ∈ l → is_Some (last_notified_at (LastNotifiedTimestamp q))) →
  (user_id, p) ∈ l →
  prefs_table w !! user_id = Some p →
  (∀ w0, (ticks w ≤ ticks w0)%nat →
         result_of (is_user_due_for_notification
                      (default "daily" (NotificationFrequency p))
                      (LastNotifiedTimestamp p) w0) = Some true) →
  filter_by_topic topic new_items ≠ [] →
  ∃ (w' : World) (k : nat),
    for_each (notify_user new_items alexa_token) l tt w = Ok tt w'
    ∧ filter (λ n, n.1 = user_id) (notifications w')
      = filter (λ n, n.1 = user_id) (notifications w)
        ++ [(user_id, filter_by_topic topic new_items)]
    ∧ (ticks w ≤ k < ticks w')%nat
    ∧ prefs_table w' !! user_id
      = Some (mkUserPref (NotificationFrequency p) (PreferredTopic p)
                         (Some (isoformat (clock k))) (UpdatedTimestamp p)).
Proof.
  intros topic. revert w.
  induction l as [|[u q] l IH]; intros w Hnodup Hwf Hin Hlook Hdue Hmatch.
  { by apply elem_of_nil in Hin. }
  simpl in Hnodup. apply NoDup_cons in Hnodup as [Hfresh Hnodup].
  simpl. unfold bind.
  destruct (notify_user_effect new_items alexa_token u q w)
    as (Hticks & Hok & Hhit & _ & Hother & extra & Hextra & Hall).
  rewrite Hok by (apply (Hwf u); by left).
  set (w1 := world_of (notify_user new_items alexa_token tt (u, q) w)) in *.
  apply elem_of_cons in Hin as [[= <- <-]|Hin].
  - destruct Hhit as [Hn (k & Hk & Htab)]; [by apply Hdue|done|].
    destruct (notify_loop_returns new_items alexa_token l w1) as [w' Hrun].
    { intros u' q' Hq'. apply (Hwf u'). by right. }
    destruct (notify_loop_untouched new_items alexa_token user_id l w1)
      as (Hp' & Hn' & Ht').
    { intros q' Hq'. destruct Hfresh. apply list_elem_of_fmap.
      by exists (user_id, q'). }
    rewrite Hrun in *. simpl in *. exists w', k. split; [done|].
    split; [|split; [lia|]].
    + rewrite Hn', Hn, filter_app, filter_cons_True, filter_nil by done.
      done.
    + rewrite Hp', Htab, lookup_insert_eq, Hlook. done.
  - assert (u ≠ user_id) as Hne.
    { intros ->. destruct Hfresh. apply list_elem_of_fmap.
      by exists (user_id, p). }
    destruct (IH w1) as (w' & k & Hrun & Hn' & Hk & Htab); try done.
    { intros u' q' Hq'. apply (Hwf u'). by right. }
    { by rewrite Hother. }
    { intros w0 Hw0. apply Hdue. lia. }
    exists w', k. split; [done|]. split; [|split; [lia|done]].
    rewrite Hn', Hextra. f_equal. apply filter_user_app_other.
    eapply Forall_impl; [exact Hall|]. simpl. congruence.
Qed.


(** C3. When every stored last-notified timestamp is one that the
    due-ness check accepts, a user whose record is due at the clock
    readings of the run, and whose topic occurs in the source of a new
    item, gets exactly one notification from the run, with all the matching
    items in their order; after it the last-notified timestamp of the user
    is the text of a clock reading of the run, and the rest of the record
    is as before. *)
Theorem notify_users_one_plan (new_items : list NewItem) (alexa_token : string)
    (user_id : string) (p : UserPref) (w : World) :
  let topic := default "decisions" (PreferredTopic p) in
  (∀ u q, prefs_table w !! u = Some q →
          is_Some (last_notified_at (LastNotifiedTimestamp q))) →
  prefs_table w !! user_id = Some p →
  (∀ w0, (ticks w ≤ ticks w0)%nat →
         result_of (is_user_due_for_notification
                      (default "daily" (NotificationFrequency p))
                      (LastNotifiedTimestamp p) w0) = Some true) →
  (∃ it, it ∈ new_items ∧ occurs_in topic (n_FeedSource it)) →
  ∃ (w' : World) (k : nat),
    notify_users new_items alexa_token w = Ok tt w'
    ∧ filter (λ n, n.1 = user_id) (notifications w')
      = filter (λ n, n.1 = user_id) (notifications w)
        ++ [(user_id, filter (λ it, occurs_in topic (n_FeedSource it)) new_items)]
    ∧ (ticks w ≤ k < ticks w')%nat
    ∧ prefs_table w' !! user_id
      = Some (mkUserPref (NotificationFrequency p) (PreferredTopic p)
                         (Some (isoformat (clock k))) (UpdatedTimestamp p)).
Proof.
  intros topic Hwf Hlook Hdue (it & Hit & Hocc).
  rewrite notify_users_unfold, <- filter_by_topic_filter.
  apply notify_loop_hit; try done.
  - apply NoDup_fst_map_to_list.
  - intros u q Hq%elem_of_map_to_list. by apply (Hwf u).
  - by apply elem_of_map_to_list.
  - fold topic. rewrite filter_by_topic_filter. intros Hnil.
    assert (it ∈ filter (λ it, occurs_in topic (n_FeedSource it)) new_items)
      as Hin by (by apply list_elem_of_filter).
    rewrite Hnil in Hin. by apply elem_of_nil in Hin.
Qed.

(** ** Preferences *)

(** C10. Setting a preference replaces the whole record of the user by
    the frequency, the topic and the update timestamp: a last-notified
    timestamp stored before is gone, the records of the other users stay,
    and the due-ness check on the new record answers true at every clock
    reading, so the next run takes the user as due. *)
Theorem handle_set_preference_resets (request : IntentRequest) (w : World) :
  let user_id := get_alexa_user_id request in
  let frequency := default "daily" (slot_frequency request) in
  let topic := default "decisions" (slot_topic request) in
  let stored :=
    mkUserPref (Some frequency) (Some topic) None
               (Some (isoformat (clock (ticks w)))) in
  ∃ w' : World,
    handle_set_preference request w
    = Ok (build_plaintext_response
            ("Got it. Preference set to " +:+ frequency +:+ " updates for "
               +:+ topic +:+ ".")) w'
    ∧ prefs_table w' = <[user_id := stored]> (prefs_table w)
    ∧ prefs_table w' !! user_id = Some stored
    ∧ LastNotifiedTimestamp stored = None
    ∧ (∀ u, u ≠ user_id → prefs_table w' !! u = prefs_table w !! u)
    ∧ feed_table w' = feed_table w
    ∧ ∀ w2 : World,
        is_user_due_for_notification
          (default "daily" (NotificationFrequency stored))
          (LastNotifiedTimestamp stored) w2 = Ok true w2.
Proof.
  intros user_id frequency topic stored.
  unfold handle_set_preference, bind, utcnow, prefs_put_item. simpl.
  eexists. split; [reflexivity|]. simpl.
  split; [done|]. split; [apply lookup_insert_eq|]. split; [done|].
  split; [intros u Hu; by rewrite lookup_insert_ne|]. by split.
Qed.

(** ** More on ingestion *)

Lemma process_entries_all_stored (rss_url llm_api_key : string)
    (entries : list Entry) (acc : list NewItem) (w : World) :
  (∀ e, e ∈ entries → is_Some (feed_table w !! link e)) →
  for_each (process_entry rss_url llm_api_key) entries acc w = Ok acc w.
Proof.
  induction entries as [|e entries IH]; intros Hall; [done|].
  rewrite for_each_cons, process_entry_stored by (apply Hall; by left).
  apply IH. intros e' He'. apply Hall. by right.
Qed.

(** What a run over a feed leaves behind, item by item. *)
Lemma process_entries_detail (rss_url llm_api_key : string)
    (entries : list Entry) (acc : list NewItem) (w : World) :
  ∃ (items : list NewItem) (w' : World),
    for_each (process_entry rss_url llm_api_key) entries acc w
    = Ok (acc ++ items) w'
    ∧ (∀ k it, feed_table w !! k = Some it → feed_table w' !! k = Some it)
    ∧ NoDup (n_ItemId <$> items)
    ∧ (∀ k, k ∈ n_ItemId <$> items
            ↔ k ∈ link <$> entries ∧ feed_table w !! k = None)
    ∧ Forall (λ n, n_FeedSource n = rss_url
                   ∧ n_Link n = n_ItemId n
                   ∧ ∃ r, feed_table w' !! n_ItemId n = Some r
                          ∧ Title r = Some (n_Title n)
                          ∧ Summary r = Some (n_Summary n)
                          ∧ FeedSource r = Some rss_url
                          ∧ Link r = n_Link n
                          ∧ (comprehend_enabled = false → Entities r = [])) items
    ∧ dom (feed_table w') = dom (feed_table w) ∪ list_to_set (link <$> entries)
    ∧ ticks w' = (ticks w + 2 * length items)%nat
    ∧ length (comprehend_calls w')
      = (length (comprehend_calls w)
         + if comprehend_enabled then length items else 0)%nat
    ∧ posted w' = posted w.
Proof.
  clear fromisoformat fetch_feed.
  revert acc w. induction entries as [|e entries IH]; intros acc w.
  - exists [], w. rewrite app_nil_r. simpl. split; [done|]. split; [done|].
    split; [constructor|]. split.
    { intros k. split; [by intros ?%elem_of_nil|by intros [?%elem_of_nil _]]. }
    split; [constructor|]. split; [by rewrite union_empty_r_L|].
    split; [lia|]. split; [by destruct comprehend_enabled; lia|done].
  - rewrite for_each_cons.
    destruct (feed_table w !! link e) as [it|] eqn:Hlook.
    + rewrite process_entry_stored by (by rewrite Hlook).
      destruct (IH acc w)
        as (items & w' & -> & Hkeep & Hnd & Hids & Hrec & Hdom & Hrest).
      exists items, w'. split; [done|]. split; [done|]. split; [done|].
      split; [|split; [done|split; [|done]]].
      * intros k. rewrite Hids, fmap_cons, elem_of_cons. split; [tauto|].
        intros [[->|?] Hk]; [congruence|done].
      * rewrite Hdom, fmap_cons, list_to_set_cons.
        assert (link e ∈ dom (feed_table w)) as Hin
          by (apply elem_of_dom; by eexists).
        apply set_eq. intros k.
        rewrite !elem_of_union, elem_of_singleton. split; [tauto|].
        intros [?|[->|?]]; tauto.
    + destruct (process_entry_absent rss_url llm_api_key acc e w Hlook)
        as (summary & entities & w1 & -> & _ & Hent & Htab & _ & Hcomp & _
            & _ & Hposted & Hticks).
      destruct (IH (acc ++ [mkNewItem (link e) (title e) (link e) summary
                              (default "" (published e)) rss_url]) w1)
        as (items & w' & -> & Hkeep & Hnd & Hids & Hrec & Hdom & Ht & Hc & Hp).
      eexists (_ :: items), w'. rewrite <- app_assoc. simpl.
      split; [done|]. split; [|split; [|split; [|split; [|split]]]].
      * intros k it Hk. apply Hkeep. rewrite Htab.
        rewrite lookup_insert_ne; [done|]. intros <-. congruence.
      * constructor; [|done]. rewrite Hids, Htab, lookup_insert_eq.
        by intros [_ ?].
      * intros k. rewrite elem_of_cons, Hids, elem_of_cons, Htab.
        destruct (decide (k = link e)) as [->|Hne].
        -- rewrite lookup_insert_eq. split; [tauto|]. intros _. by left.
        -- rewrite lookup_insert_ne by done. split.
           ++ intros [?|[? ?]]; [done|]. split; [by right|done].
           ++ intros [[?|?] ?]; [done|]. by right.
      * constructor; [|done]. simpl. split; [done|]. split; [done|].
        eexists. split; [apply Hkeep; rewrite Htab; apply lookup_insert_eq|].
        simpl. repeat split; try done.
        intros Hoff. by rewrite Hoff in Hent.
      * rewrite Hdom, Htab, dom_insert_L.
        by rewrite (assoc_L (∪)), (comm_L (∪) (dom (feed_table w))).
      * split; [rewrite Ht, Hticks; lia|]. split; [|congruence].
        rewrite Hc, Hcomp, length_app.
        destruct comprehend_enabled; simpl; lia.
Qed.

(** X1. Ingesting the entries of a feed a second time, right after a run
    over them, under any feed URL and key, finds every link stored: it
    yields no new item and leaves the world as it is, with no summarizer
    call, no clock read and no write. *)
Theorem process_entries_twice (rss_url llm_api_key rss_url' llm_api_key' : string)
    (entries : list Entry) (w : World) :
  let w' := world_of (process_entries rss_url llm_api_key entries w) in
  process_entries rss_url' llm_api_key' entries w' = Ok [] w'.
Proof.
  intros w'. subst w'. unfold process_entries.
  destruct (process_entries_run rss_url llm_api_key entries [] w)
    as (items & w' & -> & _ & _ & Hall & _).
  simpl. by apply process_entries_all_stored.
Qed.

(** X2. The new items of a run have pairwise distinct ids, and these are
    exactly the links of the feed that were absent from the table before
    the run: a link that occurs twice in the feed is ingested once. After
    the run the table holds the ids it held before and every link of the
    feed. *)
Theorem process_entries_new_ids (rss_url llm_api_key : string)
    (entries : list Entry) (w : World) :
  ∃ (new_items : list NewItem) (w' : World),
    process_entries rss_url llm_api_key entries w = Ok new_items w'
    ∧ NoDup (n_ItemId <$> new_items)
    ∧ (∀ k, k ∈ n_ItemId <$> new_items
            ↔ k ∈ link <$> entries ∧ feed_table w !! k = None)
    ∧ dom (feed_table w') = dom (feed_table w) ∪ list_to_set (link <$> entries).
Proof.
  destruct (process_entries_detail rss_url llm_api_key entries [] w)
    as (items & w' & Hrun & _ & Hnd & Hids & _ & Hdom & _).
  by exists items, w'.
Qed.

(** X3. Every new item of a run has its record in the table after the
    run, under the item's id, and the two agree: the record has the title,
    the link and the summary of the item, and both carry the URL of the
    feed as their source. *)
Theorem process_entries_records_agree (rss_url llm_api_key : string)
    (entries : list Entry) (w : World) :
  ∃ (new_items : list NewItem) (w' : World),
    process_entries rss_url llm_api_key entries w = Ok new_items w'
    ∧ ∀ n, n ∈ new_items →
        n_FeedSource n = rss_url
        ∧ n_Link n = n_ItemId n
        ∧ ∃ r, feed_table w' !! n_ItemId n = Some r
               ∧ Title r = Some (n_Title n)
               ∧ Link r = n_Link n
               ∧ Summary r = Some (n_Summary n)
               ∧ FeedSource r = Some (n_FeedSource n).
Proof.
  destruct (process_entries_detail rss_url llm_api_key entries [] w)
    as (items & w' & Hrun & _ & _ & _ & Hrec & _).
  exists items, w'. split; [done|]. intros n Hn.
  rewrite Forall_forall in Hrec.
  destruct (Hrec n Hn) as (Hsrc & Hlink & r & Hr & Ht & Hs & Hf & Hl & _).
  split; [done|]. split; [done|]. exists r. by rewrite Hsrc.
Qed.

(** X4. Ingestion writes to the feed table only: a run over a feed leaves
    the preference table, the notifications and the posted events as they
    are, it reads the clock twice per new item, and it calls Comprehend
    once per new item when Comprehend is enabled and never when it is
    disabled, in which case every new record has no entities. *)
Theorem process_entries_effects (rss_url llm_api_key : string)
    (entries : list Entry) (w : World) :
  ∃ (new_items : list NewItem) (w' : World),
    process_entries rss_url llm_api_key entries w = Ok new_items w'
    ∧ prefs_table w' = prefs_table w
    ∧ notifications w' = notifications w
    ∧ posted w' = posted w
    ∧ ticks w' = (ticks w + 2 * length new_items)%nat
    ∧ length (comprehend_calls w')
      = (length (comprehend_calls w)
         + if comprehend_enabled then length new_items else 0)%nat
    ∧ (comprehend_enabled = false →
       ∀ n, n ∈ new_items →
            Entities <$> feed_table w' !! n_ItemId n = Some []).
Proof.
  destruct (process_entries_detail rss_url llm_api_key entries [] w)
    as (items & w' & Hrun & _ & _ & _ & Hrec & _ & Hticks & Hcomp & Hposted).
  destruct (process_entries_run rss_url llm_api_key entries [] w)
    as (items' & w'' & Hrun' & _ & _ & _ & _ & _ & Hprefs & Hnot).
  unfold process_entries. rewrite Hrun in Hrun'. injection Hrun' as <- <-.
  exists items, w'. split; [done|]. repeat split; try done.
  intros Hoff n Hn. rewrite Forall_forall in Hrec.
  destruct (Hrec n Hn) as (_ & _ & r & -> & _ & _ & _ & _ & Hent).
  simpl. by rewrite Hent.
Qed.

(** X5. The new items of one feed are relevant to a topic all together or
    not at all: the topic filter keeps the whole list when the topic occurs
    in the URL of the feed, and nothing otherwise. *)
Theorem filter_by_topic_one_feed (rss_url llm_api_key topic : string)
    (entries : list Entry) (w : World) :
  ∃ (new_items : list NewItem) (w' : World),
    process_entries rss_url llm_api_key entries w = Ok new_items w'
    ∧ filter_by_topic topic new_items
      = if contains topic rss_url then new_items else [].
Proof.
  destruct (process_entries_detail rss_url llm_api_key entries [] w)
    as (items & w' & Hrun & _ & _ & _ & Hrec & _).
  exists items, w'. split; [done|]. rewrite filter_by_topic_filter.
  assert (Forall (λ n, n_FeedSource n = rss_url) items) as Hsrc.
  { eapply Forall_impl; [exact Hrec|]. by intros n [? _]. }
  clear Hrec Hrun. destruct (contains topic rss_url) eqn:Hc.
  - induction Hsrc as [|n items Hn _ IH]; [done|].
    rewrite filter_cons_True, IH; [done|]. apply contains_occurs. by rewrite Hn.
  - apply filter_none. intros n Hn Hocc%contains_occurs.
    rewrite Forall_forall in Hsrc. rewrite (Hsrc n Hn) in Hocc. congruence.
Qed.

(** ** More on notification *)

Lemma send_proactive_notification_posted (user_id : string)
    (items : list NewItem) (alexa_token : string) (w : World) :
  ∃ (w' : World) (evs : list EventPayload),
    send_proactive_notification user_id items alexa_token w = Ok tt w'
    ∧ posted w' = posted w ++ evs
    ∧ (λ ev, (ev_user ev, ev_count ev)) <$> evs
      = (if truthy (Some alexa_token) then [(user_id, length items)] else [])
    ∧ ticks w' = (ticks w + if truthy (Some alexa_token) then 3 else 0)%nat
    ∧ feed_table w' = feed_table w
    ∧ llm_calls w' = llm_calls w
    ∧ comprehend_calls w' = comprehend_calls w.
Proof.
  unfold send_proactive_notification, bind, utcnow, post_event.
  destruct (truthy (Some alexa_token)); simpl.
  - do 2 eexists. split; [reflexivity|]. simpl.
    repeat split; try reflexivity; lia.
  - exists (with_notifications (notifications w ++ [(user_id, items)]) w), [].
    simpl. rewrite app_nil_r. repeat split; try reflexivity; lia.
Qed.

(** The logs and the tables after one iteration of the loop. *)
Lemma notify_user_logs (new_items : list NewItem) (alexa_token : string)
    (user_id : string) (p : UserPref) (w : World) :
  let frequency := default "daily" (NotificationFrequency p) in
  let topic := default "decisions" (PreferredTopic p) in
  let last_notified := LastNotifiedTimestamp p in
  let filtered_items := filter_by_topic topic new_items in
  let o := notify_user new_items alexa_token tt (user_id, p) w in
  feed_table (world_of o) = feed_table w
  ∧ llm_calls (world_of o) = llm_calls w
  ∧ comprehend_calls (world_of o) = comprehend_calls w
  ∧ (∃ ns evs,
       notifications (world_of o) = notifications w ++ ns
       ∧ posted (world_of o) = posted w ++ evs
       ∧ (λ ev, (ev_user ev, ev_count ev)) <$> evs
         = (if truthy (Some alexa_token)
            then (λ n, (n.1, length n.2)) <$> ns else [])
       ∧ (ns = [] ∨ ns = [(user_id, filtered_items)] ∧ filtered_items ≠ []))
  ∧ (result_of (is_user_due_for_notification frequency last_notified w)
       ≠ Some true →
     notifications (world_of o) = notifications w
     ∧ prefs_table (world_of o) = prefs_table w)
  ∧ (last_notified_at last_notified = None → result_of o = None)
  ∧ (is_Some (prefs_table w !! user_id) →
     ∀ u, (λ q, (NotificationFrequency q, PreferredTopic q, UpdatedTimestamp q))
            <$> prefs_table (world_of o) !! u
          = (λ q, (NotificationFrequency q, PreferredTopic q, UpdatedTimestamp q))
              <$> prefs_table w !! u).
Proof.
  intros frequency topic last_notified filtered_items o.
  subst o. unfold notify_user, bind. simpl.
  fold frequency topic last_notified filtered_items.
  unfold last_notified_at.
  rewrite is_user_due_for_notification_unfold.
  destruct (negb (truthy last_notified)) eqn:Ht; simpl.
  2: destruct (fromisoformat (default "" last_notified)) as [[t|t]|]; simpl.
  2: destruct (threshold frequency <=? clock (ticks w) - t) eqn:Hdue; simpl.
  all: try (repeat split;
              first [done | by intros [=] | by intros []
                    | by exists [], []; rewrite !app_nil_r; repeat split;
                         [destruct (String.eqb alexa_token "")|left]]).
  all: destruct filtered_items as [|it its] eqn:Hf; simpl;
    [by repeat split;
        first [done | by intros [=] | by intros []
              | by exists [], []; rewrite !app_nil_r; repeat split;
                   [destruct (String.eqb alexa_token "")|left]]|].
  all: match goal with
       | |- context [send_proactive_notification ?u ?i ?t ?w0] =>
           destruct (send_proactive_notification_posted u i t w0)
             as (w1 & evs & Hrun & Hp & Hevs & _ & Hfeed & Hllm & Hcomp);
           destruct (send_proactive_notification_effect u i t w0)
             as (w1' & Hrun' & Hn & Hprefs & _);
           rewrite Hrun in Hrun'; injection Hrun' as <-; rewrite Hrun
       end; simpl in *; unfold utcnow, prefs_update_last_notified; simpl.
  all: split; [done|]. all: split; [done|]. all: split; [done|].
  all: split;
    [exists [(user_id, it :: its)], evs; rewrite Hn, Hp;
     split; [done|]; split; [done|]; split;
     [by destruct (String.eqb alexa_token "")|by right]|].
  all: split; [by intros []|]. all: split; [done|].
  all: intros [old Hold] u; rewrite Hprefs, Hold; simpl.
  all: destruct (decide (user_id = u)) as [<-|Hne];
    [by rewrite lookup_insert_eq, Hold|by rewrite lookup_insert_ne].
Qed.

Lemma notify_loop_logs (new_items : list NewItem) (alexa_token : string)
    (l : list (string * UserPref)) (w : World) :
  let w' := world_of (for_each (notify_user new_items alexa_token) l tt w) in
  feed_table w' = feed_table w
  ∧ llm_calls w' = llm_calls w
  ∧ comprehend_calls w' = comprehend_calls w
  ∧ ∃ ns evs,
      notifications w' = notifications w ++ ns
      ∧ posted w' = posted w ++ evs
      ∧ (λ ev, (ev_user ev, ev_count ev)) <$> evs
        = (if truthy (Some alexa_token)
           then (λ n, (n.1, length n.2)) <$> ns else [])
      ∧ Forall (λ n, n.2 ≠ []
                     ∧ ∃ p, (n.1, p) ∈ l
                            ∧ n.2 = filter_by_topic
                                      (default "decisions" (PreferredTopic p))
                                      new_items) ns
      ∧ ns.*1 `sublist_of` l.*1.
Proof.
  revert w. induction l as [|[u p] l IH]; intros w; simpl.
  { repeat split. exists [], []. rewrite !app_nil_r. repeat split; [|done..].
    by destruct (negb _). }
  unfold bind.
  destruct (notify_user_logs new_items alexa_token u p w)
    as (Hfeed & Hllm & Hcomp & (ns & evs & Hn & Hp & Hevs & Hns) & _).
  destruct (notify_user new_items alexa_token tt (u, p) w) as [[] w1|e w1];
    simpl in *.
  - destruct (IH w1)
      as (Hfeed' & Hllm' & Hcomp' & ns' & evs' & Hn' & Hp' & Hevs' & Hall & Hsub).
    split; [congruence|]. split; [congruence|]. split; [congruence|].
    exists (ns ++ ns'), (evs ++ evs').
    rewrite Hn', Hn, Hp', Hp, <- !app_assoc. split; [done|]. split; [done|].
    split; [|split].
    + rewrite fmap_app, Hevs, Hevs'.
      destruct (negb _); [by rewrite fmap_app|done].
    + apply Forall_app. split.
      * destruct Hns as [->|[-> Hne]]; [constructor|].
        repeat constructor; [done|]. exists p. split; [by left|done].
      * eapply Forall_impl; [exact Hall|]. intros n (Hne & q & Hq & Heq).
        split; [done|]. exists q. split; [by right|done].
    + rewrite fmap_app. destruct Hns as [->|[-> _]]; simpl.
      * by apply sublist_cons.
      * by apply sublist_skip.
  - split; [done|]. split; [done|]. split; [done|].
    exists ns, evs. split; [done|]. split; [done|]. split; [done|].
    destruct Hns as [->|[-> Hne]].
    + split; [constructor|apply sublist_nil_l].
    + split.
      * repeat constructor; [done|]. exists p. split; [by left|done].
      * simpl. apply sublist_skip, sublist_nil_l.
Qed.

Lemma notify_loop_prefs (new_items : list NewItem) (alexa_token : string)
    (l : list (string * UserPref)) (w : World) :
  (∀ up, up ∈ l → is_Some (prefs_table w !! up.1)) →
  let w' := world_of (for_each (notify_user new_items alexa_token) l tt w) in
  ∀ u, (λ q, (NotificationFrequency q, PreferredTopic q, UpdatedTimestamp q))
         <$> prefs_table w' !! u
       = (λ q, (NotificationFrequency q, PreferredTopic q, UpdatedTimestamp q))
           <$> prefs_table w !! u.
Proof.
  revert w. induction l as [|[u p] l IH]; intros w Hl; simpl; [done|].
  unfold bind.
  destruct (notify_user_logs new_items alexa_token u p w)
    as (_ & _ & _ & _ & _ & _ & Hprefs).
  specialize (Hprefs (Hl (u, p) ltac:(by left))).
  destruct (notify_user new_items alexa_token tt (u, p) w) as [[] w1|e w1];
    simpl in *; [|done].
  intros u'. rewrite <- Hprefs. apply IH.
  intros up Hup. apply fmap_is_Some with
    (f := λ q, (NotificationFrequency q, PreferredTopic q, UpdatedTimestamp q)).
  rewrite Hprefs. apply fmap_is_Some, Hl. by right.
Qed.


(** The loop raises when a record of the scan has a timestamp that the
    due-ness check does not accept. *)
Lemma notify_loop_raises (new_items : list NewItem) (alexa_token : string)
    (u : string) (q : UserPref) (l : list (string * UserPref)) (w : World) :
  (u, q) ∈ l →
  last_notified_at (LastNotifiedTimestamp q) = None →
  result_of (for_each (notify_user new_items alexa_token) l tt w) = None.
Proof.
  revert w. induction l as [|[u' q'] l IH]; intros w Hin Hbad.
  { by apply elem_of_nil in Hin. }
  simpl. unfold bind.
  destruct (notify_user_logs new_items alexa_token u' q' w)
    as (_ & _ & _ & _ & _ & Hraise & _).
  destruct (notify_user new_items alexa_token tt (u', q') w) as [[] w1|e w1];
    simpl in *; [|done].
  apply elem_of_cons in Hin as [[= <- <-]|Hin]; [by specialize (Hraise Hbad)|].
  by apply IH.
Qed.

(** X6. A notification run returns normally exactly when every stored
    last-notified timestamp is absent, empty, or the text of a naive
    datetime; one record with another timestamp makes the whole run raise,
    whatever the new items are. *)
Theorem notify_users_returns_iff (new_items : list NewItem)
    (alexa_token : string) (w : World) :
  (∃ w', notify_users new_items alexa_token w = Ok tt w')
  ↔ ∀ u q, prefs_table w !! u = Some q →
           is_Some (last_notified_at (LastNotifiedTimestamp q)).
Proof.
  rewrite notify_users_unfold. split.
  - intros [w' Hrun] u q Hq.
    destruct (last_notified_at (LastNotifiedTimestamp q)) eqn:Hlast;
      [by eexists|].
    pose proof (notify_loop_raises new_items alexa_token u q
                  (map_to_list (prefs_table w)) w) as Hraise.
    rewrite Hrun in Hraise. discriminate Hraise; [|done].
    by apply elem_of_map_to_list.
  - intros Hwf. apply notify_loop_returns.
    intros u q Hq%elem_of_map_to_list. by apply (Hwf u).
Qed.

(** X7. A notification run posts one event per notification, in the same
    order, for the same user and with the number of items of the
    notification as its count; without a token it posts nothing, while the
    notifications are made and recorded all the same. *)
Theorem notify_users_posts (new_items : list NewItem) (alexa_token : string)
    (w : World) :
  let w' := world_of (notify_users new_items alexa_token w) in
  ∃ ns evs,
    notifications w' = notifications w ++ ns
    ∧ posted w' = posted w ++ evs
    ∧ (λ ev, (ev_user ev, ev_count ev)) <$> evs
      = (if decide (alexa_token = "") then []
         else (λ n, (n.1, length n.2)) <$> ns).
Proof.
  intros w'. subst w'. rewrite notify_users_unfold.
  destruct (notify_loop_logs new_items alexa_token
              (map_to_list (prefs_table w)) w)
    as (_ & _ & _ & ns & evs & Hn & Hp & Hevs & _).
  exists ns, evs. split; [done|]. split; [done|]. rewrite Hevs. simpl.
  destruct (String.eqb_spec alexa_token ""); by destruct (decide _).
Qed.

(** X8. Every notification of a run is for a user of the preference
    table, carries a non-empty list of items, namely the new items that the
    topic of that user selects, and no user gets two notifications in one
    run. *)
Theorem notify_users_notifications (new_items : list NewItem)
    (alexa_token : string) (w : World) :
  let w' := world_of (notify_users new_items alexa_token w) in
  ∃ ns,
    notifications w' = notifications w ++ ns
    ∧ NoDup ns.*1
    ∧ ∀ n, n ∈ ns →
        n.2 ≠ []
        ∧ ∃ p, prefs_table w !! n.1 = Some p
               ∧ n.2 = filter (λ it, occurs_in (default "decisions" (PreferredTopic p))
                                       (n_FeedSource it)) new_items.
Proof.
  intros w'. subst w'. rewrite notify_users_unfold.
  destruct (notify_loop_logs new_items alexa_token
              (map_to_list (prefs_table w)) w)
    as (_ & _ & _ & ns & evs & Hn & _ & _ & Hall & Hsub).
  exists ns. split; [done|]. split.
  - eapply sublist_NoDup; [|exact Hsub]. apply NoDup_fst_map_to_list.
  - intros n Hin. rewrite Forall_forall in Hall.
    destruct (Hall n Hin) as (Hne & p & Hp%elem_of_map_to_list & Heq).
    split; [done|]. exists p. by rewrite <- filter_by_topic_filter.
Qed.

(** X9. A notification run changes nothing but last-notified timestamps:
    it creates and deletes no preference record, the frequency, the topic
    and the update timestamp of every record stay, and the feed table and
    the calls to the summarizer and to Comprehend are as before. This holds
    whether the run returns or raises. *)
Theorem notify_users_preserves (new_items : list NewItem)
    (alexa_token : string) (w : World) :
  let w' := world_of (notify_users new_items alexa_token w) in
  dom (prefs_table w') = dom (prefs_table w)
  ∧ (∀ u, (λ q, (NotificationFrequency q, PreferredTopic q, UpdatedTimestamp q))
            <$> prefs_table w' !! u
          = (λ q, (NotificationFrequency q, PreferredTopic q, UpdatedTimestamp q))
              <$> prefs_table w !! u)
  ∧ feed_table w' = feed_table w
  ∧ llm_calls w' = llm_calls w
  ∧ comprehend_calls w' = comprehend_calls w.
Proof.
  intros w'. subst w'. rewrite notify_users_unfold.
  destruct (notify_loop_logs new_items alexa_token
              (map_to_list (prefs_table w)) w) as (Hfeed & Hllm & Hcomp & _).
  pose proof (notify_loop_prefs new_items alexa_token
                (map_to_list (prefs_table w)) w) as Hprefs.
  simpl in Hprefs.
  assert (∀ up, up ∈ map_to_list (prefs_table w) →
                is_Some (prefs_table w !! up.1)) as Hin.
  { intros [u p] Hup%elem_of_map_to_list. by eexists. }
  specialize (Hprefs Hin).
  split; [|by repeat split].
  apply set_eq. intros u. rewrite !elem_of_dom.
  rewrite <- (fmap_is_Some
                (λ q, (NotificationFrequency q, PreferredTopic q,
                       UpdatedTimestamp q)) (prefs_table _ !! u)).
  rewrite Hprefs. apply fmap_is_Some.
Qed.


(** ** More on the due-ness check *)

(** X11. Only the frequency "weekly" has the seven-day rule: with any
    other frequency, a misspelt or differently cased one included, the
    due-ness check does exactly what it does with "daily". *)
Theorem is_user_due_for_notification_other_frequency (frequency : string)
    (last_notified : option string) (w : World) :
  frequency ≠ "weekly" →
  is_user_due_for_notification frequency last_notified w
  = is_user_due_for_notification "daily" last_notified w.
Proof.
  intros Hne. rewrite !is_user_due_for_notification_unfold.
  rewrite !threshold_cases. destruct (decide (frequency = "weekly")); [done|].
  by destruct (decide ("daily" = "weekly")).
Qed.

(** X12. A record that is due with the frequency "weekly" is due with
    every frequency: going from weekly to daily never turns a due user into
    one that is not due. *)
Theorem is_user_due_for_notification_weekly_daily (frequency : string)
    (last_notified : option string) (w : World) :
  result_of (is_user_due_for_notification "weekly" last_notified w) = Some true →
  result_of (is_user_due_for_notification frequency last_notified w) = Some true.
Proof.
  rewrite !is_user_due_for_notification_unfold, !threshold_cases.
  destruct (negb (truthy last_notified)); [done|].
  destruct (fromisoformat (default "" last_notified)) as [[t|t]|]; [|done..].
  simpl. intros [= H%Z.leb_le]. f_equal. apply Z.leb_le.
  destruct (decide ("weekly" = "weekly")); [|done].
  destruct (decide (frequency = "weekly")); unfold timedelta_days in *; lia.
Qed.

(** X13. The due-ness check raises exactly on a timestamp that is
    present, not empty, and not the text of a naive datetime: ValueError,
    before the clock is read, when the text is no ISO datetime, and
    TypeError, after the clock is read, when it carries a UTC offset. *)
Theorem is_user_due_for_notification_raises (frequency : string)
    (last_notified : option string) (w : World) :
  (result_of (is_user_due_for_notification frequency last_notified w) = None
   ↔ last_notified_at last_notified = None)
  ∧ (truthy last_notified = true →
     fromisoformat (default "" last_notified) = None →
     is_user_due_for_notification frequency last_notified w
     = Raised ValueError w)
  ∧ (truthy last_notified = true →
     ∀ t, fromisoformat (default "" last_notified) = Some (Aware t) →
          is_user_due_for_notification frequency last_notified w
          = Raised TypeError (with_ticks (S (ticks w)) w)).
Proof.
  rewrite is_user_due_for_notification_unfold. unfold last_notified_at.
  destruct (truthy last_notified); simpl; [|by repeat split].
  destruct (fromisoformat (default "" last_notified)) as [[t|t]|]; simpl.
  - by repeat split.
  - split; [done|]. split; [done|]. by intros _ t' [= ->].
  - by repeat split.
Qed.

(** ** More on the topic filter *)

Lemma append_assoc (a b c : string) : (a +:+ b) +:+ c = a +:+ (b +:+ c).
Proof. induction a as [|ch a IH]; [done|]. by rewrite !append_cons, IH. Qed.

Lemma occurs_in_trans (a b c : string) :
  occurs_in a b → occurs_in b c → occurs_in a c.
Proof.
  intros (pre1 & post1 & ->) (pre2 & post2 & ->).
  exists (pre2 +:+ pre1), (post1 +:+ post2).
  by rewrite !append_assoc.
Qed.

(** X14. A topic that contains another selects no more than the other: the
    items relevant to the longer topic are a subsequence of the items
    relevant to the topic it contains. *)
Theorem filter_by_topic_narrower (topic topic' : string) (items : list NewItem) :
  occurs_in topic topic' →
  filter_by_topic topic' items `sublist_of` filter_by_topic topic items.
Proof.
  intros Hocc. rewrite !filter_by_topic_filter.
  induction items as [|it items IH]; [done|].
  destruct (decide (occurs_in topic' (n_FeedSource it))) as [H'|H'].
  - rewrite filter_cons_True by done.
    rewrite filter_cons_True by (by apply (occurs_in_trans topic topic')).
    by apply sublist_skip.
  - rewrite (filter_cons_False _ it items H').
    destruct (decide (occurs_in topic (n_FeedSource it))).
    + rewrite filter_cons_True by done. by apply sublist_cons.
    + by rewrite filter_cons_False.
Qed.

(** X15. The topic filter works item by item: the relevant items of the
    new items of two feeds put together are the relevant items of the first
    followed by those of the second, and filtering a second time by the
    same topic changes nothing. *)
Theorem filter_by_topic_app (topic : string) (items1 items2 : list NewItem) :
  filter_by_topic topic (items1 ++ items2)
  = filter_by_topic topic items1 ++ filter_by_topic topic items2
  ∧ filter_by_topic topic (filter_by_topic topic items1)
    = filter_by_topic topic items1.
Proof.
  rewrite !filter_by_topic_filter. split; [apply filter_app|].
  rewrite list_filter_filter. apply list_filter_iff.
  intros it. split; [by intros [? _]|by intros ?].
Qed.

(** ** The scheduler's handler *)

(** The ingestion loop of the handler over a list of feeds. *)
Lemma ingest_feeds_run (llm_api_key : string) (feeds : list string)
    (acc : list NewItem) (w : World) :
  ∃ (items : list NewItem) (w' : World),
    for_each (fun new_items rss_url =>
                bind (process_feed rss_url llm_api_key)
                     (fun items => ret (new_items ++ items)))
             feeds acc w
    = Ok (acc ++ items) w'
    ∧ (∀ k it, feed_table w !! k = Some it → feed_table w' !! k = Some it)
    ∧ (∀ url e, url ∈ feeds → e ∈ fetch_feed url →
                is_Some (feed_table w' !! link e))
    ∧ length (llm_calls w') = (length (llm_calls w) + length items)%nat
    ∧ size (feed_table w') = (size (feed_table w) + length items)%nat
    ∧ prefs_table w' = prefs_table w
    ∧ notifications w' = notifications w
    ∧ posted w' = posted w.
Proof.
  revert acc w. induction feeds as [|url feeds IH]; intros acc w.
  - exists [], w. rewrite app_nil_r. simpl.
    repeat split; try done; try lia. by intros url e ?%elem_of_nil.
  - rewrite for_each_cons. unfold bind at 1, process_feed, process_entries.
    destruct (process_entries_run url llm_api_key (fetch_feed url) [] w)
      as (items & w1 & Hrun & Hkeep & _ & Hall & Hllm & Hsize & Hprefs & Hnot).
    destruct (process_entries_detail url llm_api_key (fetch_feed url) [] w)
      as (items' & w1' & Hrun' & _ & _ & _ & _ & _ & _ & _ & Hposted).
    rewrite Hrun in Hrun'. injection Hrun' as <- <-. rewrite Hrun.
    unfold ret at 1. simpl.
    destruct (IH (acc ++ items) w1)
      as (items2 & w' & Hrun2 & Hkeep2 & Hall2 & Hllm2 & Hsize2 & Hprefs2
          & Hnot2 & Hposted2).
    exists (items ++ items2), w'. rewrite <- app_assoc in Hrun2.
    split; [exact Hrun2|].
    split; [by auto|]. split.
    { intros url' e [->|Hin]%elem_of_cons He; [|by eapply Hall2].
      destruct (Hall e He) as [it Hit]. exists it. by apply Hkeep2. }
    rewrite length_app. repeat split; try congruence; lia.
Qed.

Lemma ingest_feeds_stored (llm_api_key : string) (feeds : list string)
    (acc : list NewItem) (w : World) :
  (∀ url e, url ∈ feeds → e ∈ fetch_feed url →
            is_Some (feed_table w !! link e)) →
  for_each (fun new_items rss_url =>
              bind (process_feed rss_url llm_api_key)
                   (fun items => ret (new_items ++ items)))
           feeds acc w
  = Ok acc w.
Proof.
  induction feeds as [|url feeds IH]; intros Hall; [done|].
  rewrite for_each_cons. unfold bind at 1, process_feed, process_entries.
  rewrite process_entries_all_stored.
  - unfold ret at 1. rewrite app_nil_r. apply IH.
    intros url' e Hurl He. apply (Hall url'); [by right|done].
  - intros e He. apply (Hall url); [by left|done].
Qed.

(** X16. When every entry of the polled feeds is stored already, the
    handler reports zero new items and leaves the world as it is: no
    summarizer call, no write, and no look at the preferences, so that
    nobody is notified and no last-notified timestamp moves. *)
Theorem scheduler_lambda_handler_nothing_new (w : World) :
  (∀ url e, url ∈ MULTIPLE_FEEDS → e ∈ fetch_feed url →
            is_Some (feed_table w !! link e)) →
  scheduler_lambda_handler w = Ok 0%nat w.
Proof.
  intros Hall. unfold scheduler_lambda_handler. cbv zeta. unfold bind at 1.
  by rewrite ingest_feeds_stored.
Qed.

(** X17. When the handler returns, the number it reports is the number of
    records that the run added to the feed table and the number of
    summarizer calls it made; a second run over the same feeds then reports
    zero and changes nothing. *)
Theorem scheduler_lambda_handler_count (w w' : World) (n : nat) :
  scheduler_lambda_handler w = Ok n w' →
  size (feed_table w') = (size (feed_table w) + n)%nat
  ∧ length (llm_calls w') = (length (llm_calls w) + n)%nat
  ∧ scheduler_lambda_handler w' = Ok 0%nat w'.
Proof.
  unfold scheduler_lambda_handler at 1. cbv zeta. unfold bind at 1.
  destruct (ingest_feeds_run
              (default "" (get_secrets !! "LLM_API_KEY")) MULTIPLE_FEEDS [] w)
    as (items & w1 & -> & _ & Hall & Hllm & Hsize & _).
  change ([] ++ items) with items.
  assert (∀ w2, feed_table w2 = feed_table w1 →
                scheduler_lambda_handler w2 = Ok 0%nat w2) as Hagain.
  { intros w2 Hw2. apply scheduler_lambda_handler_nothing_new.
    intros url e Hurl He. rewrite Hw2. by eapply Hall. }
  destruct items as [|it items].
  - intros [= <- <-]. simpl in *. split; [lia|]. split; [lia|]. by apply Hagain.
  - unfold bind. rewrite notify_users_unfold.
    destruct (notify_loop_logs (it :: items)
                (default "" (get_secrets !! "ALEXA_OAUTH_TOKEN"))
                (map_to_list (prefs_table w1)) w1) as (Hfeed & Hcalls & _).
    destruct (for_each _ _ _ w1) as [[] w2|e w2]; [|done].
    simpl in *. intros [= <- <-].
    rewrite Hfeed, Hcalls. split; [lia|]. split; [lia|]. by apply Hagain.
Qed.

(** X18. Without an OAuth token in the secret, and so whenever the secret
    cannot be retrieved, the handler posts no event, whether it returns or
    raises. *)
Theorem scheduler_lambda_handler_no_token (w : World) :
  default "" (get_secrets !! "ALEXA_OAUTH_TOKEN") = "" →
  posted (world_of (scheduler_lambda_handler w)) = posted w.
Proof.
  intros Htoken. unfold scheduler_lambda_handler. cbv zeta. unfold bind at 1.
  destruct (ingest_feeds_run
              (default "" (get_secrets !! "LLM_API_KEY")) MULTIPLE_FEEDS [] w)
    as (items & w1 & -> & _ & _ & _ & _ & _ & _ & Hposted).
  change ([] ++ items) with items. destruct items as [|it items]; [done|].
  unfold bind. rewrite notify_users_unfold, Htoken.
  destruct (notify_loop_logs (it :: items) "" (map_to_list (prefs_table w1)) w1)
    as (_ & _ & _ & ns & evs & _ & Hp & Hevs & _).
  simpl in Hevs. apply fmap_nil_inv in Hevs as ->. rewrite app_nil_r in Hp.
  destruct (for_each _ _ _ w1) as [[] w2|e w2]; simpl in *; congruence.
Qed.

(** ** More on the skill *)

Lemma latest_items_unfold (topic : string) (items : list FeedItem) :
  latest_items topic items
  = take 3 (sorted_reverse CreatedTimestamp
              (filter (λ it, occurs_in topic (default "" (FeedSource it))) items)).
Proof.
  unfold latest_items.
  by rewrite (filter_bool_decide _
                (λ it, occurs_in topic (default "" (FeedSource it))))
    by (intros; apply contains_occurs).
Qed.

(** X19. The latest items are the newest of the matching items: each of
    them is a stored item whose source contains the topic, each is at least
    as new as every matching item that is left out, and they are three, or
    all the matching items when these are fewer. *)
Theorem latest_items_newest (topic : string) (items : list FeedItem) :
  let kept := filter (λ it, occurs_in topic (default "" (FeedSource it))) items in
  length (latest_items topic items) = (3 `min` length kept)%nat
  ∧ (∀ it, it ∈ latest_items topic items → it ∈ kept)
  ∧ (∀ a b, a ∈ latest_items topic items → b ∈ kept →
            b ∉ latest_items topic items → newer_first a b).
Proof.
  intros kept. rewrite latest_items_unfold. fold kept.
  set (S := sorted_reverse CreatedTimestamp kept).
  assert (S ≡ₚ kept) as Hperm by apply sorted_reverse_Permutation.
  split; [by rewrite length_take, Hperm|]. split.
  - intros it Hit. rewrite <- Hperm. eapply elem_of_sublist; [exact Hit|].
    apply sublist_take.
  - intros a b Ha Hb Hnot.
    assert (StronglySorted newer_first S) as Hsorted.
    { apply Sorted_StronglySorted; [|apply (sorted_reverse_Sorted CreatedTimestamp)].
      intros x y z Hxy Hyz. unfold newer_first in *. by etrans. }
    rewrite <- (take_drop 3 S) in Hsorted.
    eapply StronglySorted_app_1_elem_of; [exact Hsorted|exact Ha|].
    rewrite <- Hperm, <- (take_drop 3 S), elem_of_app in Hb.
    by destruct Hb.
Qed.

Lemma occurs_in_app_l (a s t : string) : occurs_in a s → occurs_in a (s +:+ t).
Proof.
  intros (pre & post & ->). exists pre, (post +:+ t).
  by rewrite !append_assoc.
Qed.

Lemma occurs_in_app_r (a s t : string) : occurs_in a t → occurs_in a (s +:+ t).
Proof.
  intros (pre & post & ->). exists (s +:+ pre), post.
  by rewrite !append_assoc.
Qed.

Lemma occurs_in_refl (a : string) : occurs_in a a.
Proof.
  exists "", "". rewrite append_nil.
  induction a as [|c a IH]; [done|]. by rewrite append_cons, <- IH.
Qed.

Lemma speech_of_items_extends (i : nat) (items : list FeedItem) (s : string) :
  ∃ rest, speech_of_items i items s = s +:+ rest.
Proof.
  revert i s. induction items as [|it items IH]; intros i s; simpl.
  - exists "". induction s as [|c s IHs]; [done|].
    by rewrite append_cons, <- IHs.
  - destruct (IH (S i) (s +:+ "Update " +:+ pretty (S i) +:+ ": "
                          +:+ py_str (Title it) +:+ ". " +:+ "Summary: "
                          +:+ py_str (Summary it) +:+ "
")) as [rest ->].
    eexists. by rewrite append_assoc.
Qed.

Lemma speech_of_items_speaks (i : nat) (items : list FeedItem) (s : string)
    (it : FeedItem) :
  it ∈ items →
  occurs_in (py_str (Title it)) (speech_of_items i items s)
  ∧ occurs_in (py_str (Summary it)) (speech_of_items i items s).
Proof.
  revert i s. induction items as [|it' items IH]; intros i s Hin.
  { by apply elem_of_nil in Hin. }
  apply elem_of_cons in Hin as [->|Hin]; [|by apply IH].
  simpl. destruct (speech_of_items_extends (S i) items
                     (s +:+ "Update " +:+ pretty (S i) +:+ ": "
                        +:+ py_str (Title it') +:+ ". " +:+ "Summary: "
                        +:+ py_str (Summary it') +:+ "
")) as [rest ->].
  split; apply occurs_in_app_l; do 4 apply occurs_in_app_r.
  - apply occurs_in_app_l, occurs_in_refl.
  - do 3 apply occurs_in_app_r. apply occurs_in_app_l, occurs_in_refl.
Qed.

(** X20. The answer to a latest-updates request changes nothing in the
    world. It has no card exactly when no stored item has the topic of the
    user in its source, and it is then "No new <topic> updates at this
    time."; otherwise it has the card "Latest FLRA Updates" with the spoken
    text as content, and the spoken text has the title and the summary of
    every one of the latest items in it. *)
Theorem handle_get_latest_updates_answer (request : IntentRequest) (w : World) :
  let topic :=
    default "decisions"
      (prefs_table w !! get_alexa_user_id request ≫= PreferredTopic) in
  let items := (map_to_list (feed_table w)).*2 in
  ∃ resp : Response,
    handle_get_latest_updates request w = Ok resp w
    ∧ (card resp = None
       ↔ ∀ it, it ∈ items → ¬ occurs_in topic (default "" (FeedSource it)))
    ∧ (card resp = None →
       speech resp = "No new " +:+ topic +:+ " updates at this time.")
    ∧ (card resp ≠ None →
       card resp = Some ("Latest FLRA Updates", speech resp))
    ∧ (∀ it, it ∈ latest_items topic items →
             occurs_in (py_str (Title it)) (speech resp)
             ∧ occurs_in (py_str (Summary it)) (speech resp)).
Proof.
  intros topic items.
  unfold handle_get_latest_updates, bind, load_user_preferences, feed_scan.
  fold items. fold topic.
  assert (latest_items topic items = []
          ↔ ∀ it, it ∈ items → ¬ occurs_in topic (default "" (FeedSource it)))
    as Hnone.
  { rewrite latest_items_unfold. split.
    - intros Hnil it Hit Hocc.
      assert (length (filter (λ it, occurs_in topic (default "" (FeedSource it)))
                        items) = 0%nat) as Hlen.
      { apply (f_equal length) in Hnil.
        rewrite length_take, sorted_reverse_Permutation in Hnil.
        change (length (@nil FeedItem)) with 0%nat in Hnil. lia. }
      apply nil_length_inv in Hlen.
      assert (it ∈ filter (λ it, occurs_in topic (default "" (FeedSource it)))
                     items) as Hin by (by apply list_elem_of_filter).
      rewrite Hlen in Hin. by apply elem_of_nil in Hin.
    - intros Hall. by rewrite filter_none. }
  destruct (latest_items topic items) as [|it0 latest] eqn:Hlatest.
  - eexists. split; [reflexivity|]. simpl. split; [by rewrite <- Hnone|].
    split; [done|]. split; [done|]. by intros it ?%elem_of_nil.
  - eexists. split; [reflexivity|]. cbn -[speech_of_items String.append]. split.
    { rewrite <- Hnone. by split. }
    split; [done|]. split; [done|].
    intros it Hit. by apply speech_of_items_speaks.
Qed.

(** X21. A preference that has been set is what the user hears back: a
    get-preference request of the same user, and of every request without a
    user id when the setting request had none, is answered with the
    frequency and the topic just set, "daily" and "decisions" standing in
    for a slot without value; the answer to another user is what it was
    before. *)
Theorem handle_set_then_get_preference (set_request get_request : IntentRequest)
    (w : World) :
  let w' := world_of (handle_set_preference set_request w) in
  (get_alexa_user_id get_request = get_alexa_user_id set_request →
   handle_get_preference get_request w'
   = Ok (build_plaintext_response
           ("Your preference is " +:+ default "daily" (slot_frequency set_request)
              +:+ " updates about "
              +:+ default "decisions" (slot_topic set_request) +:+ ".")) w')
  ∧ (get_alexa_user_id get_request ≠ get_alexa_user_id set_request →
     result_of (handle_get_preference get_request w')
     = result_of (handle_get_preference get_request w)).
Proof.
  intros w'. subst w'.
  unfold handle_set_preference, handle_get_preference, bind, utcnow,
    prefs_put_item, load_user_preferences. simpl. split.
  - intros Hid. unfold get_alexa_user_id in *.
    rewrite Hid, lookup_insert_eq. reflexivity.
  - intros Hne. unfold get_alexa_user_id in *.
    rewrite lookup_insert_ne by done. by destruct (prefs_table w !! _).
Qed.

(** X22. After a preference is set, the latest-updates answer to the same
    user is built for the topic just set: from the latest items of that
    topic, and "No new <topic> updates at this time." when there are
    none. *)
Theorem handle_set_then_latest_updates (set_request request : IntentRequest)
    (w : World) :
  get_alexa_user_id request = get_alexa_user_id set_request →
  let topic := default "decisions" (slot_topic set_request) in
  let w' := world_of (handle_set_preference set_request w) in
  let items := (map_to_list (feed_table w)).*2 in
  ∃ resp : Response,
    handle_get_latest_updates request w' = Ok resp w'
    ∧ (latest_items topic items = [] →
       resp = build_plaintext_response
                ("No new " +:+ topic +:+ " updates at this time."))
    ∧ (∀ it, it ∈ latest_items topic items →
             occurs_in (py_str (Title it)) (speech resp)
             ∧ occurs_in (py_str (Summary it)) (speech resp)).
Proof.
  intros Hid topic w' items.
  assert (feed_table w' = feed_table w) as Hfeed by done.
  assert (prefs_table w' !! get_alexa_user_id request ≫= PreferredTopic
          = Some topic) as Htopic.
  { subst w'. unfold handle_set_preference, bind, utcnow, prefs_put_item. simpl.
    by rewrite Hid, lookup_insert_eq. }
  unfold handle_get_latest_updates, bind, load_user_preferences, feed_scan.
  rewrite Htopic, Hfeed. simpl. fold items.
  destruct (latest_items topic items) as [|it0 latest] eqn:Hlatest.
  - eexists. split; [reflexivity|]. split; [done|]. by intros it ?%elem_of_nil.
  - eexists. split; [reflexivity|]. split; [done|].
    intros it Hit.
    exact (speech_of_items_speaks 0 (it0 :: latest) _ it Hit).
Qed.

(** X23. Setting a preference adds at most the record of the user to the
    preference table, and a second setting by the same user replaces the
    first: the record is then the one of the second request. *)
Theorem handle_set_preference_twice (first second : IntentRequest) (w : World) :
  let w1 := world_of (handle_set_preference first w) in
  let w2 := world_of (handle_set_preference second w1) in
  dom (prefs_table w1) = {[get_alexa_user_id first]} ∪ dom (prefs_table w)
  ∧ (get_alexa_user_id second = get_alexa_user_id first →
     dom (prefs_table w2) = dom (prefs_table w1)
     ∧ prefs_table w2 !! get_alexa_user_id first
       = Some (mkUserPref (Some (default "daily" (slot_frequency second)))
                          (Some (default "decisions" (slot_topic second)))
                          None
                          (Some (isoformat (clock (S (ticks w))))))).
Proof.
  intros w1 w2. subst w1 w2.
  unfold handle_set_preference, bind, utcnow, prefs_put_item. simpl.
  split; [apply dom_insert_L|]. intros ->.
  rewrite insert_insert_eq, lookup_insert_eq. split; [|done].
  by rewrite !dom_insert_L.
Qed.

(** X24. A user who has just set a preference is notified by the next
    run that brings a new item whose source contains the topic set,
    whenever the timestamps of the other records are ones the due-ness
    check accepts: whatever last-notified timestamp the user had before,
    the run makes one notification for the user and stamps the record. *)
Theorem handle_set_preference_then_notify (request : IntentRequest)
    (new_items : list NewItem) (alexa_token : string) (w : World) :
  let user_id := get_alexa_user_id request in
  let topic := default "decisions" (slot_topic request) in
  let w1 := world_of (handle_set_preference request w) in
  (∀ u q, u ≠ user_id → prefs_table w !! u = Some q →
          is_Some (last_notified_at (LastNotifiedTimestamp q))) →
  (∃ it, it ∈ new_items ∧ occurs_in topic (n_FeedSource it)) →
  ∃ (w' : World) (k : nat),
    notify_users new_items alexa_token w1 = Ok tt w'
    ∧ filter (λ n, n.1 = user_id) (notifications w')
      = filter (λ n, n.1 = user_id) (notifications w)
        ++ [(user_id, filter (λ it, occurs_in topic (n_FeedSource it)) new_items)]
    ∧ LastNotifiedTimestamp <$> prefs_table w' !! user_id
      = Some (Some (isoformat (clock k))).
Proof.
  intros user_id topic w1 Hwf (it & Hit & Hocc).
  set (stored := mkUserPref (Some (default "daily" (slot_frequency request)))
                            (Some topic) None
                            (Some (isoformat (clock (ticks w))))).
  assert (prefs_table w1 = <[user_id := stored]> (prefs_table w)) as Htab by done.
  assert (notifications w1 = notifications w) as Hnot by done.
  rewrite notify_users_unfold, <- filter_by_topic_filter, <- Hnot.
  destruct (notify_loop_hit new_items alexa_token user_id stored
              (map_to_list (prefs_table w1)) w1)
    as (w' & k & Hrun & Hn & _ & Hp).
  - apply NoDup_fst_map_to_list.
  - intros u q Hq%elem_of_map_to_list. rewrite Htab in Hq.
    destruct (decide (u = user_id)) as [->|Hne].
    + rewrite lookup_insert_eq in Hq. injection Hq as <-. by eexists.
    + rewrite lookup_insert_ne in Hq by done. by apply (Hwf u).
  - apply elem_of_map_to_list. by rewrite Htab, lookup_insert_eq.
  - by rewrite Htab, lookup_insert_eq.
  - intros w0 _. by rewrite is_user_due_for_notification_unfold.
  - simpl. fold topic. rewrite filter_by_topic_filter. intros Hnil.
    assert (it ∈ filter (λ it, occurs_in topic (n_FeedSource it)) new_items)
      as Hin by (by apply list_elem_of_filter).
    rewrite Hnil in Hin. by apply elem_of_nil in Hin.
  - exists w', k. split; [done|]. split; [done|]. by rewrite Hp.
Qed.

(** The handlers of the skill's intents always answer. *)
Lemma respond_get_latest_updates (request : IntentRequest) (sw : SkillWorld) :
  ∃ r, respond (handle_get_latest_updates request) sw = Responded (Spoken r) sw
       ∧ shouldEndSession r = false.
Proof.
  unfold respond, handle_get_latest_updates, bind, load_user_preferences,
    feed_scan. destruct sw as [w ms]. simpl.
  destruct (latest_items _ _); by eexists.
Qed.

Lemma respond_get_preference (request : IntentRequest) (sw : SkillWorld) :
  ∃ r, respond (handle_get_preference request) sw = Responded (Spoken r) sw
       ∧ shouldEndSession r = false.
Proof.
  unfold respond, handle_get_preference, bind, load_user_preferences.
  destruct sw as [w ms]. simpl.
  destruct (prefs_table w !! _); by eexists.
Qed.

Lemma respond_set_preference (request : IntentRequest) (sw : SkillWorld) :
  ∃ r w',
    respond (handle_set_preference request) sw
    = Responded (Spoken r) (mkSkillWorld w' (sk_metrics sw))
    ∧ shouldEndSession r = false
    ∧ feed_table w' = feed_table (sk_world sw)
    ∧ llm_calls w' = llm_calls (sk_world sw)
    ∧ notifications w' = notifications (sk_world sw)
    ∧ posted w' = posted (sk_world sw).
Proof.
  unfold respond, handle_set_preference, bind, utcnow, prefs_put_item.
  simpl. by do 2 eexists.
Qed.

Lemma put_custom_metric_effect (metric_name : string) (value : Z)
    (sw : SkillWorld) :
  sk_world (put_custom_metric metric_name value sw)
  = with_ticks (S (ticks (sk_world sw))) (sk_world sw)
  ∧ sk_metrics (put_custom_metric metric_name value sw)
    = sk_metrics sw ++ [(metric_name, clock (ticks (sk_world sw)), value)].
Proof. done. Qed.

(** The answer and the world of the skill after an event. *)
Lemma skill_lambda_handler_outcome (event : option SkillRequest)
    (sw : SkillWorld) :
  ∃ (r : SkillResponse) (sw' : SkillWorld),
    skill_lambda_handler event sw = Responded r sw'
    ∧ (feed_table (sk_world sw') = feed_table (sk_world sw)
       ∧ llm_calls (sk_world sw') = llm_calls (sk_world sw)
       ∧ notifications (sk_world sw') = notifications (sk_world sw)
       ∧ posted (sk_world sw') = posted (sk_world sw))
    ∧ ((∀ request, event ≠ Some (IntentRequestOf "SetPreferenceIntent" request)) →
       prefs_table (sk_world sw') = prefs_table (sk_world sw))
    ∧ sk_metrics sw'
      = sk_metrics sw
        ++ ("SkillInvocationCount", clock (ticks (sk_world sw)), 1)
           :: match event with
              | Some (IntentRequestOf intent_name _) =>
                  [(intent_name +:+ "Count",
                    clock (S (ticks (sk_world sw))), 1)]
              | _ => []
              end
    ∧ (ends_session r = true
       ↔ ∃ request, event = Some (IntentRequestOf "PlayAudioIntent" request))
    ∧ (∀ intent_name request,
         event = Some (IntentRequestOf intent_name request) →
         intent_name ∉ ["GetLatestUpdatesIntent"; "SetPreferenceIntent";
                        "GetPreferenceIntent"; "PlayAudioIntent"] →
         r = Spoken (build_plaintext_response "I don't know that intent.")).
Proof.
  unfold skill_lambda_handler.
  destruct (put_custom_metric_effect "SkillInvocationCount" 1 sw) as [Hw1 Hm1].
  set (sw1 := put_custom_metric "SkillInvocationCount" 1 sw) in *.
  destruct event as [[|name request|]|].
  1,3,4: do 2 eexists; split; [reflexivity|]; rewrite Hw1, Hm1;
    (split; [done|]); (split; [done|]); (split; [done|]);
    (split; [by split; [|intros [? [=]]]|]); by intros ?? [=].
  unfold on_intent.
  destruct (put_custom_metric_effect (name +:+ "Count") 1 sw1) as [Hw2 Hm2].
  set (sw2 := put_custom_metric (name +:+ "Count") 1 sw1) in *.
  assert (sk_metrics sw2
          = sk_metrics sw
            ++ [("SkillInvocationCount", clock (ticks (sk_world sw)), 1);
                (name +:+ "Count", clock (S (ticks (sk_world sw))), 1)]) as Hm.
  { rewrite Hm2, Hm1, Hw1, <- app_assoc. done. }
  assert (feed_table (sk_world sw2) = feed_table (sk_world sw)
          ∧ llm_calls (sk_world sw2) = llm_calls (sk_world sw)
          ∧ notifications (sk_world sw2) = notifications (sk_world sw)
          ∧ posted (sk_world sw2) = posted (sk_world sw)
          ∧ prefs_table (sk_world sw2) = prefs_table (sk_world sw))
    as (Hf & Hl & Hn & Hp & Hprefs) by (by rewrite Hw2, Hw1).
  destruct (String.eqb_spec name "GetLatestUpdatesIntent") as [->|Hne1].
  { destruct (respond_get_latest_updates request sw2) as (r & -> & Hend).
    exists (Spoken r), sw2. split; [done|]. split; [done|]. split; [done|].
    split; [done|]. split.
    - simpl. rewrite Hend. split; [done|]. by intros [? [=]].
    - intros ?? [= <- <-] Hnot. destruct Hnot. by left. }
  destruct (String.eqb_spec name "SetPreferenceIntent") as [->|Hne2].
  { destruct (respond_set_preference request sw2)
      as (r & w' & -> & Hend & Hf' & Hl' & Hn' & Hp').
    do 2 eexists. split; [reflexivity|]. simpl.
    split; [by rewrite Hf', Hl', Hn', Hp'|]. split.
    { intros Hnot. by destruct (Hnot request). }
    split; [done|]. split.
    - rewrite Hend. split; [done|]. by intros [? [=]].
    - intros ?? [= <- <-] Hnot. destruct Hnot. right. by left. }
  destruct (String.eqb_spec name "GetPreferenceIntent") as [->|Hne3].
  { destruct (respond_get_preference request sw2) as (r & -> & Hend).
    exists (Spoken r), sw2. split; [done|]. split; [done|]. split; [done|].
    split; [done|]. split.
    - simpl. rewrite Hend. split; [done|]. by intros [? [=]].
    - intros ?? [= <- <-] Hnot. destruct Hnot. do 2 right. by left. }
  destruct (String.eqb_spec name "PlayAudioIntent") as [->|Hne4].
  { exists handle_play_audio, sw2. split; [done|]. split; [done|].
    split; [done|]. split; [done|]. split.
    - split; [by exists request|done].
    - intros ?? [= <- <-] Hnot. destruct Hnot. do 3 right. by left. }
  do 2 eexists. split; [reflexivity|]. split; [done|]. split; [done|].
  split; [done|]. split; [|done].
  split; [done|]. intros [? [= ? ?]]. congruence.
Qed.

(** X25. The skill always answers, and it only ever writes a preference:
    for every event the feed table, the summarizer calls, the notifications
    and the posted events are after the answer what they were before, and
    so is the preference table unless the event is a set-preference
    intent. *)
Theorem skill_lambda_handler_read_only (event : option SkillRequest)
    (sw : SkillWorld) :
  ∃ (r : SkillResponse) (sw' : SkillWorld),
    skill_lambda_handler event sw = Responded r sw'
    ∧ feed_table (sk_world sw') = feed_table (sk_world sw)
    ∧ llm_calls (sk_world sw') = llm_calls (sk_world sw)
    ∧ notifications (sk_world sw') = notifications (sk_world sw)
    ∧ posted (sk_world sw') = posted (sk_world sw)
    ∧ ((∀ request, event ≠ Some (IntentRequestOf "SetPreferenceIntent" request)) →
       prefs_table (sk_world sw') = prefs_table (sk_world sw)).
Proof.
  destruct (skill_lambda_handler_outcome event sw)
    as (r & sw' & Hrun & (Hf & Hl & Hn & Hp) & Hprefs & _).
  by exists r, sw'.
Qed.

(** X26. Every invocation of the skill sends the metric
    "SkillInvocationCount", an event without a request included, and an
    intent request sends after it a metric named after the intent, whether
    the skill knows the intent or not; each datum has the value one and the
    clock reading taken for it. *)
Theorem skill_lambda_handler_metrics (event : option SkillRequest)
    (sw : SkillWorld) :
  sk_metrics (skill_world_of (skill_lambda_handler event sw))
  = sk_metrics sw
    ++ ("SkillInvocationCount", clock (ticks (sk_world sw)), 1)
       :: match event with
          | Some (IntentRequestOf intent_name _) =>
              [(intent_name +:+ "Count", clock (S (ticks (sk_world sw))), 1)]
          | _ => []
          end.
Proof.
  destruct (skill_lambda_handler_outcome event sw)
    as (r & sw' & -> & _ & _ & Hm & _).
  exact Hm.
Qed.

(** X27. The skill ends the session only when it plays audio: the answer
    to a play-audio intent ends the session, every other answer keeps it
    open; and an intent whose name is none of the four names the skill
    compares with, in their exact spelling, is answered with "I don't know
    that intent.". *)
Theorem skill_lambda_handler_session (event : option SkillRequest)
    (sw : SkillWorld) :
  ∃ (r : SkillResponse) (sw' : SkillWorld),
    skill_lambda_handler event sw = Responded r sw'
    ∧ (ends_session r = true
       ↔ ∃ request, event = Some (IntentRequestOf "PlayAudioIntent" request))
    ∧ (∀ intent_name request,
         event = Some (IntentRequestOf intent_name request) →
         intent_name ∉ ["GetLatestUpdatesIntent"; "SetPreferenceIntent";
                        "GetPreferenceIntent"; "PlayAudioIntent"] →
         r = Spoken (build_plaintext_response "I don't know that intent.")).
Proof.
  destruct (skill_lambda_handler_outcome event sw)
    as (r & sw' & Hrun & _ & _ & _ & Hend & Hunknown).
  by exists r, sw'.
Qed.

End Pipeline.


(** ** The scenario, and the examples of the specification *)

Lemma is_user_due_for_notification_rule_witness :
  last_notified_at PyDatetime.fromisoformat (Some Scenario.midnight)
  = Some (Some 1704067200000000)
  ∧ ∃ due : bool,
      result_of (is_user_due_for_notification Scenario.clock
                   PyDatetime.fromisoformat "weekly" (Some Scenario.midnight)
                   Scenario.empty_world) = Some due
      ∧ (due = true ↔
         (if decide ("weekly" = "weekly") then timedelta_days 7
          else timedelta_days 1) ≤ Scenario.clock 0 - 1704067200000000).
Proof.
  split; [by vm_compute|].
  apply (is_user_due_for_notification_rule Scenario.clock
           PyDatetime.fromisoformat "weekly" (Some Scenario.midnight)
           (Some 1704067200000000) Scenario.empty_world).
  by vm_compute.
Defined.




Lemma notify_users_one_plan_witness :
  ∃ (w' : World) (k : nat),
    notify_users Scenario.clock PyDatetime.fromisoformat PyDatetime.isoformat
      Scenario.new_items "token" Scenario.world_u1 = Ok tt w'
    ∧ filter (λ n, n.1 = "u1") (notifications w')
      = [("u1", filter (λ it, occurs_in "press" (n_FeedSource it))
                  Scenario.new_items)]
    ∧ (0 ≤ k < ticks w')%nat
    ∧ prefs_table w' !! "u1"
      = Some (mkUserPref (Some "daily") (Some "press")
                (Some (PyDatetime.isoformat (Scenario.clock k))) None).
Proof.
  apply (notify_users_one_plan Scenario.clock PyDatetime.fromisoformat
           PyDatetime.isoformat Scenario.new_items "token" "u1" Scenario.u1
           Scenario.world_u1).
  - intros u q H. simpl in H.
    apply lookup_singleton_Some in H as [<- <-]. by eexists.
  - apply lookup_singleton_eq.
  - intros w0 _. by rewrite is_user_due_for_notification_unfold.
  - exists Scenario.press_item. split.
    + apply elem_of_cons. right. by left.
    + apply contains_occurs. by vm_compute.
Defined.



(** The examples of the specification. *)

Example due_never_notified :
  result_of (is_user_due_for_notification (Scenario.at_hours 0) PyDatetime.fromisoformat
               "daily" None Scenario.empty_world) = Some true.
Proof. reflexivity. Qed.

Example due_daily_23h :
  result_of (is_user_due_for_notification (Scenario.at_hours 23) PyDatetime.fromisoformat
               "daily" (Some Scenario.midnight) Scenario.empty_world) = Some false.
Proof. by vm_compute. Qed.

Example due_daily_25h :
  result_of (is_user_due_for_notification (Scenario.at_hours 25) PyDatetime.fromisoformat
               "daily" (Some Scenario.midnight) Scenario.empty_world) = Some true.
Proof. by vm_compute. Qed.

Example due_weekly_6d :
  result_of (is_user_due_for_notification (Scenario.at_hours (6 * 24))
               PyDatetime.fromisoformat "weekly" (Some Scenario.midnight)
               Scenario.empty_world) = Some false.
Proof. by vm_compute. Qed.

Example due_weekly_8d :
  result_of (is_user_due_for_notification (Scenario.at_hours (8 * 24))
               PyDatetime.fromisoformat "weekly" (Some Scenario.midnight)
               Scenario.empty_world) = Some true.
Proof. by vm_compute. Qed.

Example due_unrecognized_25h :
  result_of (is_user_due_for_notification (Scenario.at_hours 25) PyDatetime.fromisoformat
               "hourly" (Some Scenario.midnight) Scenario.empty_world) = Some true.
Proof. by vm_compute. Qed.

Example due_malformed_timestamp :
  is_user_due_for_notification (Scenario.at_hours 25) PyDatetime.fromisoformat
    "daily" (Some "yesterday") Scenario.empty_world
  = Raised ValueError Scenario.empty_world.
Proof. by vm_compute. Qed.

Example relevant_decisions :
  filter_by_topic "decisions" Scenario.new_items = [Scenario.decision_item].
Proof. reflexivity. Qed.

Example relevant_is_case_sensitive :
  filter_by_topic "Decisions" Scenario.new_items = [].
Proof. reflexivity. Qed.

Example end_to_end :
  let w' := world_of (notify_users Scenario.clock PyDatetime.fromisoformat
                        PyDatetime.isoformat Scenario.new_items "token"
                        Scenario.world_u1) in
  notifications w' = [("u1", [Scenario.press_item])]
  ∧ (LastNotifiedTimestamp <$> prefs_table w' !! "u1")
    = Some (Some "2024-01-04T12:00:00")
  ∧ ev_count <$> posted w' = [1%nat].
Proof. by vm_compute. Qed.

(** ** The scenario, continued *)


Lemma is_user_due_for_notification_other_frequency_witness :
  "Weekly" ≠ "weekly"
  ∧ is_user_due_for_notification Scenario.clock PyDatetime.fromisoformat
      "Weekly" (Some Scenario.midnight) Scenario.empty_world
    = is_user_due_for_notification Scenario.clock PyDatetime.fromisoformat
        "daily" (Some Scenario.midnight) Scenario.empty_world.
Proof.
  split; [done|].
  by apply (is_user_due_for_notification_other_frequency Scenario.clock
              PyDatetime.fromisoformat "Weekly").
Defined.

Lemma is_user_due_for_notification_weekly_daily_witness :
  result_of (is_user_due_for_notification (Scenario.at_hours (8 * 24))
               PyDatetime.fromisoformat "weekly" (Some Scenario.midnight)
               Scenario.empty_world) = Some true
  ∧ result_of (is_user_due_for_notification (Scenario.at_hours (8 * 24))
                 PyDatetime.fromisoformat "daily" (Some Scenario.midnight)
                 Scenario.empty_world) = Some true.
Proof.
  assert (result_of (is_user_due_for_notification (Scenario.at_hours (8 * 24))
                       PyDatetime.fromisoformat "weekly"
                       (Some Scenario.midnight) Scenario.empty_world)
          = Some true) as Hweekly by (by vm_compute).
  split; [exact Hweekly|].
  exact (is_user_due_for_notification_weekly_daily (Scenario.at_hours (8 * 24))
           PyDatetime.fromisoformat "daily" (Some Scenario.midnight)
           Scenario.empty_world Hweekly).
Defined.

Lemma filter_by_topic_narrower_witness :
  occurs_in "press" "press-releases"
  ∧ filter_by_topic "press-releases" Scenario.new_items
    `sublist_of` filter_by_topic "press" Scenario.new_items.
Proof.
  assert (occurs_in "press" "press-releases") as Hocc
    by (by exists "", "-releases").
  split; [exact Hocc|].
  exact (filter_by_topic_narrower "press" "press-releases" Scenario.new_items Hocc).
Defined.

Lemma scenario_feeds_stored :
  ∀ url e, url ∈ MULTIPLE_FEEDS → e ∈ Scenario.feeds url →
           is_Some (feed_table Scenario.world_stored !! link e).
Proof.
  intros url e Hurl He. unfold MULTIPLE_FEEDS in Hurl.
  apply elem_of_cons in Hurl as [->|Hurl].
  - change (e ∈ [Scenario.changed_entry]) in He.
    apply list_elem_of_singleton in He as ->.
    exists Scenario.stored_decision. apply lookup_singleton_eq.
  - apply list_elem_of_singleton in Hurl as ->. by apply elem_of_nil in He.
Defined.

Lemma scheduler_lambda_handler_nothing_new_witness :
  scheduler_lambda_handler Scenario.clock PyDatetime.fromisoformat
    PyDatetime.isoformat PyDatetime.str Scenario.llm_down false
    Scenario.comprehend_down Scenario.feeds None Scenario.world_stored
  = Ok 0%nat Scenario.world_stored.
Proof.
  apply (scheduler_lambda_handler_nothing_new Scenario.clock
           PyDatetime.fromisoformat PyDatetime.isoformat PyDatetime.str
           Scenario.llm_down false Scenario.comprehend_down Scenario.feeds None
           Scenario.world_stored).
  exact scenario_feeds_stored.
Defined.

Lemma scheduler_lambda_handler_count_witness :
  ∃ (n : nat) (w' : World),
    scheduler_lambda_handler Scenario.clock PyDatetime.fromisoformat
      PyDatetime.isoformat PyDatetime.str Scenario.llm_down false
      Scenario.comprehend_down Scenario.feeds None Scenario.empty_world
    = Ok n w'
    ∧ size (feed_table w') = (size (feed_table Scenario.empty_world) + n)%nat
    ∧ length (llm_calls w') = (length (llm_calls Scenario.empty_world) + n)%nat
    ∧ scheduler_lambda_handler Scenario.clock PyDatetime.fromisoformat
        PyDatetime.isoformat PyDatetime.str Scenario.llm_down false
        Scenario.comprehend_down Scenario.feeds None w'
      = Ok 0%nat w'.
Proof.
  destruct (scheduler_lambda_handler Scenario.clock PyDatetime.fromisoformat
              PyDatetime.isoformat PyDatetime.str Scenario.llm_down false
              Scenario.comprehend_down Scenario.feeds None
              Scenario.empty_world) as [n w'|e w'] eqn:Hrun;
    [|by vm_compute in Hrun].
  exists n, w'. split; [reflexivity|].
  exact (scheduler_lambda_handler_count Scenario.clock PyDatetime.fromisoformat
           PyDatetime.isoformat PyDatetime.str Scenario.llm_down false
           Scenario.comprehend_down Scenario.feeds None
           Scenario.empty_world w' n Hrun).
Defined.

Lemma scheduler_lambda_handler_no_token_witness :
  default "" (get_secrets None !! "ALEXA_OAUTH_TOKEN") = ""
  ∧ posted (world_of (scheduler_lambda_handler Scenario.clock
                        PyDatetime.fromisoformat PyDatetime.isoformat
                        PyDatetime.str Scenario.llm_down false
                        Scenario.comprehend_down Scenario.feeds None
                        Scenario.world_u1)) = [].
Proof.
  split; [done|].
  by apply (scheduler_lambda_handler_no_token Scenario.clock
              PyDatetime.fromisoformat PyDatetime.isoformat PyDatetime.str
              Scenario.llm_down false Scenario.comprehend_down Scenario.feeds
              None Scenario.world_u1).
Defined.

Lemma handle_set_then_latest_updates_witness :
  get_alexa_user_id (mkIntentRequest None None None)
  = get_alexa_user_id Scenario.anonymous_request
  ∧ ∃ resp : Response,
      handle_get_latest_updates (mkIntentRequest None None None)
        (world_of (handle_set_preference Scenario.clock PyDatetime.isoformat
                     Scenario.anonymous_request Scenario.world_stored))
      = Ok resp
          (world_of (handle_set_preference Scenario.clock PyDatetime.isoformat
                       Scenario.anonymous_request Scenario.world_stored))
      ∧ (latest_items "press"
           (map_to_list (feed_table Scenario.world_stored)).*2 = [] →
         resp = build_plaintext_response "No new press updates at this time.").
Proof.
  split; [done|].
  destruct (handle_set_then_latest_updates Scenario.clock PyDatetime.isoformat
              Scenario.anonymous_request (mkIntentRequest None None None)
              Scenario.world_stored eq_refl) as (resp & Hrun & Hnone & _).
  exists resp. by split.
Defined.

Lemma handle_set_preference_then_notify_witness :
  ∃ (w' : World) (k : nat),
    notify_users Scenario.clock PyDatetime.fromisoformat PyDatetime.isoformat
      Scenario.new_items "token"
      (world_of (handle_set_preference Scenario.clock PyDatetime.isoformat
                   Scenario.anonymous_request Scenario.empty_world))
    = Ok tt w'
    ∧ filter (λ n, n.1 = "demoUser") (notifications w')
      = [("demoUser", filter (λ it, occurs_in "press" (n_FeedSource it))
                        Scenario.new_items)]
    ∧ LastNotifiedTimestamp <$> prefs_table w' !! "demoUser"
      = Some (Some (PyDatetime.isoformat (Scenario.clock k))).
Proof.
  apply (handle_set_preference_then_notify Scenario.clock
           PyDatetime.fromisoformat PyDatetime.isoformat
           Scenario.anonymous_request Scenario.new_items "token"
           Scenario.empty_world).
  - intros u q _ Hq. simpl in Hq. by rewrite lookup_empty in Hq.
  - exists Scenario.press_item. split.
    + apply elem_of_cons. right. by left.
    + apply contains_occurs. by vm_compute.
Defined.

Example latest_updates_speech :
  speech <$> result_of (handle_get_latest_updates (mkIntentRequest None None None)
                          Scenario.world_stored)
  = Some "Here are the latest decisions updates:
Update 1: Decision 1. Summary: - a decision
".
Proof. by vm_compute. Qed.
